(** * AutoDeploy agent console: command interpreter and staged pipeline

    A verification development for [src/App.tsx].  The React component keeps
    three pieces of state ([logs], [input], [status]) and reacts to a text
    field, a key handler, a "Deploy Now" button and the timers that the
    deployment simulation sleeps on.

    Modelling choices, all read off the source:

    - JavaScript runs every handler and every continuation of an [async]
      function to its next [await] without interruption; React commits the
      queued state updates before the next event is dispatched.  A [World] is
      therefore the committed component state between two such tasks, and one
      [step] is one task.
    - Inside a task the handlers read [status] and [input] from the closure of
      the last render, and write with [setLogs], [setInput], [setStatus].  The
      body of a task is the list of writes it performs, computed from the
      rendered snapshot; [addLog] uses the functional form
      [setLogs(prev => [...prev, e])], so applying the writes one after the
      other is what React's update queue does.
    - [Math.random().toString(36).substr(2, 9)] and
      [new Date().toLocaleTimeString(...)] are read from the environment: the
      [n]-th call of [addLog] receives [rand n] and [clock n].
    - Text is a string over the code units U+0000..U+00FF; on these [trim] and
      [toLowerCase] below are the ECMAScript functions. *)

From Stdlib Require Import List String Ascii ZArith NArith Bool Lia.
Import ListNotations.
Open Scope string_scope.

(** ** The string methods the interpreter calls *)

Module JsString.

(** WhiteSpace and LineTerminator code units below U+0100:
    TAB, LF, VT, FF, CR, SP and NBSP. *)
Definition is_white_space (c : ascii) : bool :=
  let n := N_of_ascii c in
  ((9 <=? n) && (n <=? 13) || (n =? 32) || (n =? 160))%N.

Fixpoint trimStart (s : string) : string :=
  match s with
  | EmptyString => EmptyString
  | String c s' => if is_white_space c then trimStart s' else s
  end.

Definition reverse (s : string) : string :=
  string_of_list_ascii (rev (list_ascii_of_string s)).

Definition trimEnd (s : string) : string :=
  reverse (trimStart (reverse s)).

(** [s.trim()] *)
Definition trim (s : string) : string := trimEnd (trimStart s).

(** Lower-case mapping of one code unit: A-Z, and the Latin-1 capitals
    U+00C0..U+00DE without the multiplication sign U+00D7. *)
Definition lower_unit (c : ascii) : ascii :=
  let n := N_of_ascii c in
  if ((65 <=? n) && (n <=? 90)
      || (192 <=? n) && (n <=? 214)
      || (216 <=? n) && (n <=? 222))%N
  then ascii_of_N (n + 32)
  else c.

(** [s.toLowerCase()] *)
Fixpoint toLowerCase (s : string) : string :=
  match s with
  | EmptyString => EmptyString
  | String c s' => String (lower_unit c) (toLowerCase s')
  end.

(** [s.includes(sub)] *)
Fixpoint includes (s sub : string) : bool :=
  prefix sub s ||
  match s with
  | EmptyString => false
  | String _ s' => includes s' sub
  end.

(** A string used as a condition: only the empty string is falsy. *)
Definition truthy (s : string) : bool := negb (s =? "").

End JsString.

Import JsString.

(** ** Data model *)

(** [type LogLevel = 'info' | 'success' | 'error' | 'warning'] *)
Inductive LogLevel := info | success | error | warning.

Record LogEntry := mkLogEntry {
  id : string;
  timestamp : string;
  message : string;
  level : LogLevel
}.

(** The [state] field of [AgentStatus]; the value ['error'] is [st_error]
    here, the name [error] being the log level. *)
Inductive AgentState := idle | analyzing | building | deploying | st_error.

Record AgentStatus := mkStatus {
  state : AgentState;
  currentTask : string;
  progress : Z
}.

Definition AgentState_eqb (a b : AgentState) : bool :=
  match a, b with
  | idle, idle | analyzing, analyzing | building, building
  | deploying, deploying | st_error, st_error => true
  | _, _ => false
  end.

(** ** Task bodies *)

(** The statements a handler is made of.  [IAwait ms] is
    [await new Promise(r => setTimeout(r, ms))]. *)
Inductive Instr :=
| IAddLog (msg : string) (lvl : LogLevel)
| ISetLogs (l : list LogEntry)
| ISetInput (s : string)
| ISetStatus (s : AgentStatus)
| IAwait (ms : nat).

(** What a task has done, in the order it did it. *)
Inductive Effect :=
| EAppend (e : LogEntry)
| ESetLogs (l : list LogEntry)
| ESetInput (s : string)
| ESetStatus (s : AgentStatus)
| ESuspend (ms : nat).

(** The component between two tasks. [timers] holds the suspended
    continuations with the delay each sleeps for, [draws] counts the calls of
    [addLog] so far, [trace] is the history of effects (ghost state). *)
Record World := mkWorld {
  logs : list LogEntry;
  input : string;
  status : AgentStatus;
  draws : nat;
  timers : list (nat * list Instr);
  trace : list Effect
}.

(** [useState] initial values. *)
Definition initial_status : AgentStatus :=
  {| state := idle; currentTask := "Waiting for command..."; progress := 0 |}.

Definition init : World :=
  {| logs := []; input := ""; status := initial_status;
     draws := 0; timers := []; trace := [] |}.

(** [runDeploymentSimulation] *)
Definition runDeploymentSimulation : list Instr :=
  [ ISetStatus {| state := analyzing;
                  currentTask := "Analyzing repository structure...";
                  progress := 10 |};
    IAddLog "Initiating deployment sequence..." info;
    IAwait 1500;
    IAddLog "Repository analysis complete. Detected React/Vite project." success;
    ISetStatus {| state := building;
                  currentTask := "Running build scripts...";
                  progress := 40 |};
    IAddLog "Executing: npm run build" info;
    IAwait 2000;
    IAddLog "Build successful. Output directory: /dist" success;
    ISetStatus {| state := deploying;
                  currentTask := "Uploading assets to edge...";
                  progress := 75 |};
    IAddLog "Optimizing assets for edge distribution..." info;
    IAwait 1500;
    IAddLog "Verifying integrity..." info;
    ISetStatus {| state := idle;
                  currentTask := "Deployment Complete";
                  progress := 100 |};
    IAddLog "Deployment successful! URL: https://autodeploy-agent.vercel.app" success ].

(** [processCommand(cmd)], with [snapshot] the [status] of the render the
    handler closes over.  After [await runDeploymentSimulation()] nothing is
    left to do, so the body ends with the simulation. *)
Definition processCommand (snapshot : AgentStatus) (cmd : string) : list Instr :=
  IAddLog ("> " ++ cmd) info ::
  ISetInput "" ::
  if negb (AgentState_eqb (state snapshot) idle) then
    [ IAddLog "Agent is busy. Please wait." warning ]
  else if toLowerCase (trim cmd) =? "help" then
    [ IAddLog "Available commands: deploy, status, clear, analyze" info ]
  else if toLowerCase (trim cmd) =? "clear" then
    [ ISetLogs [] ]
  else if includes (toLowerCase (trim cmd)) "deploy" then
    runDeploymentSimulation
  else
    [ IAddLog ("Command not recognized: " ++ cmd) error ].

Section App.

(** The environment: identifier and clock reading of the [n]-th [addLog]. *)
Variable rand : nat -> string.
Variable clock : nat -> string.

Definition record (e : Effect) (w : World) : list Effect := trace w ++ [e].

(** The object literal [{ id, timestamp, message, level }] built by the
    [n]-th call of [addLog]. *)
Definition newEntry (n : nat) (msg : string) (lvl : LogLevel) : LogEntry :=
  {| id := rand n; timestamp := clock n; message := msg; level := lvl |}.

(** [addLog(message, level)]; every call site passes the level. *)
Definition addLog (msg : string) (lvl : LogLevel) (w : World) : World :=
  let e := newEntry (draws w) msg lvl in
  {| logs := logs w ++ [e]; input := input w; status := status w;
     draws := S (draws w); timers := timers w;
     trace := record (EAppend e) w |}.

Definition setLogs (l : list LogEntry) (w : World) : World :=
  {| logs := l; input := input w; status := status w;
     draws := draws w; timers := timers w;
     trace := record (ESetLogs l) w |}.

Definition setInput (s : string) (w : World) : World :=
  {| logs := logs w; input := s; status := status w;
     draws := draws w; timers := timers w;
     trace := record (ESetInput s) w |}.

Definition setStatus (s : AgentStatus) (w : World) : World :=
  {| logs := logs w; input := input w; status := s;
     draws := draws w; timers := timers w;
     trace := record (ESetStatus s) w |}.

(** The task stops at an [await]; the rest of the body waits on a timer. *)
Definition suspend (ms : nat) (k : list Instr) (w : World) : World :=
  {| logs := logs w; input := input w; status := status w;
     draws := draws w; timers := timers w ++ [(ms, k)];
     trace := record (ESuspend ms) w |}.

(** Run a body up to its next [await] or to its end. *)
Fixpoint run (body : list Instr) (w : World) : World :=
  match body with
  | [] => w
  | IAddLog m l :: k => run k (addLog m l w)
  | ISetLogs l :: k => run k (setLogs l w)
  | ISetInput s :: k => run k (setInput s w)
  | ISetStatus s :: k => run k (setStatus s w)
  | IAwait ms :: k => suspend ms k w
  end.

(** [submit] is [processCommand] called from the current render. *)
Definition submit (cmd : string) (w : World) : World :=
  run (processCommand (status w) cmd) w.

(** [handleKeyDown]: [if (e.key === 'Enter' && input) processCommand(input)] *)
Definition handleKeyDown (key : string) (w : World) : World :=
  if (key =? "Enter") && truthy (input w) then submit (input w) w else w.

(** The button: [onClick={() => processCommand('deploy')}],
    [disabled={status.state !== 'idle'}]; a disabled button fires nothing. *)
Definition clickDeploy (w : World) : World :=
  if AgentState_eqb (state (status w)) idle then submit "deploy" w else w.

(** The [i]-th timer has fired and leaves the list. *)
Definition wake (i : nat) (w : World) : World :=
  {| logs := logs w; input := input w; status := status w;
     draws := draws w;
     timers := firstn i (timers w) ++ skipn (S i) (timers w);
     trace := trace w |}.

(** The [i]-th sleeping continuation wakes up. *)
Definition timeout (i : nat) (w : World) : World :=
  match nth_error (timers w) i with
  | Some (_, k) => run k (wake i w)
  | None => w
  end.

(** What can happen to the component. [Change] is the text field's
    [onChange={(e) => setInput(e.target.value)}]. *)
Inductive Event :=
| Change (text : string)
| KeyDown (key : string)
| ClickDeploy
| Timeout (i : nat).

Definition step (w : World) (ev : Event) : World :=
  match ev with
  | Change text => setInput text w
  | KeyDown key => handleKeyDown key w
  | ClickDeploy => clickDeploy w
  | Timeout i => timeout i w
  end.

Definition exec (evs : list Event) (w : World) : World :=
  fold_left step evs w.

Definition reachable (w : World) : Prop :=
  exists evs, w = exec evs init.

End App.

(** ** Names for the values the simulation uses *)

Definition analyzing_status : AgentStatus :=
  {| state := analyzing; currentTask := "Analyzing repository structure...";
     progress := 10 |}.
Definition building_status : AgentStatus :=
  {| state := building; currentTask := "Running build scripts...";
     progress := 40 |}.
Definition deploying_status : AgentStatus :=
  {| state := deploying; currentTask := "Uploading assets to edge...";
     progress := 75 |}.
Definition complete_status : AgentStatus :=
  {| state := idle; currentTask := "Deployment Complete"; progress := 100 |}.

(** The continuations of the simulation after its first, second and third
    [await]. *)
Definition after_analysis : list Instr := skipn 3 runDeploymentSimulation.
Definition after_build : list Instr := skipn 7 runDeploymentSimulation.
Definition after_upload : list Instr := skipn 11 runDeploymentSimulation.

Definition busy_message : string := "Agent is busy. Please wait.".
Definition help_message : string :=
  "Available commands: deploy, status, clear, analyze".

(** What the rendering shows of an entry. *)
Definition shown (e : LogEntry) : string * LogLevel := (message e, level e).

(** The status transitions among a list of effects. *)
Fixpoint transitions (es : list Effect) : list AgentStatus :=
  match es with
  | [] => []
  | ESetStatus s :: es' => s :: transitions es'
  | _ :: es' => transitions es'
  end.

(** The [setStatus] calls of a body. *)
Fixpoint status_writes (body : list Instr) : list AgentStatus :=
  match body with
  | [] => []
  | ISetStatus s :: k => s :: status_writes k
  | _ :: k => status_writes k
  end.

(** The [addLog] calls of a body. *)
Fixpoint log_writes (body : list Instr) : list (string * LogLevel) :=
  match body with
  | [] => []
  | IAddLog m l :: k => (m, l) :: log_writes k
  | _ :: k => log_writes k
  end.

(** The delays a body sleeps for. *)
Fixpoint awaits (body : list Instr) : list nat :=
  match body with
  | [] => []
  | IAwait ms :: k => ms :: awaits k
  | _ :: k => awaits k
  end.

(** The table of section 4.4 of the specification, row by row: the status a
    phase sets (if any), the messages it logs, the delay it waits for (if
    any). This definition follows the specification's words, not the source;
    it is there to be compared with [runDeploymentSimulation]. *)
Record Phase := mkPhase {
  phase_status : option AgentStatus;
  phase_logs : list (string * LogLevel);
  phase_delay : option nat
}.

Definition spec_phases : list Phase :=
  [ (* Start *)
    mkPhase (Some analyzing_status)
            [("Initiating deployment sequence...", info)] None;
    (* Analyze settle *)
    mkPhase None [] (Some 1500);
    (* Analyze done *)
    mkPhase None
            [("Repository analysis complete. Detected React/Vite project.",
              success)] None;
    (* Build *)
    mkPhase (Some building_status) [("Executing: npm run build", info)] None;
    (* Build settle *)
    mkPhase None [] (Some 2000);
    (* Build done *)
    mkPhase None [("Build successful. Output directory: /dist", success)] None;
    (* Deploy *)
    mkPhase (Some deploying_status)
            [("Optimizing assets for edge distribution...", info)] None;
    (* Deploy settle *)
    mkPhase None [("Verifying integrity...", info)] (Some 1500);
    (* Finish *)
    mkPhase (Some complete_status)
            [("Deployment successful! URL: https://autodeploy-agent.vercel.app",
              success)] None ].

Definition option_list {A : Type} (o : option A) : list A :=
  match o with
  | Some a => [a]
  | None => []
  end.

(** An [addLog] of the echo of [cmd]. *)
Definition is_echo_of (cmd : string) (i : Instr) : bool :=
  match i with
  | IAddLog m _ => m =? "> " ++ cmd
  | _ => false
  end.

(** Events of the user, as opposed to a timer going off. *)
Definition is_user (ev : Event) : bool :=
  match ev with
  | Timeout _ => false
  | _ => true
  end.

(** An entry that a submission refused by the busy check leaves behind. *)
Definition rejection (e : LogEntry) : Prop :=
  (level e = info /\ exists cmd, message e = "> " ++ cmd) \/
  (level e = warning /\ message e = busy_message).

(** One task either leaves status and timers alone or moves the simulation
    one station further. *)
Definition moves (w w' : World) : Prop :=
  (status w' = status w /\ timers w' = timers w)
  \/ (state (status w) = idle /\ timers w = []
      /\ status w' = analyzing_status
      /\ timers w' = [(1500, after_analysis)])
  \/ (status w = analyzing_status /\ timers w = [(1500, after_analysis)]
      /\ status w' = building_status
      /\ timers w' = [(2000, after_build)])
  \/ (status w = building_status /\ timers w = [(2000, after_build)]
      /\ status w' = deploying_status
      /\ timers w' = [(1500, after_upload)])
  \/ (status w = deploying_status /\ timers w = [(1500, after_upload)]
      /\ status w' = complete_status
      /\ timers w' = []).

(** Sample environments: identifiers that differ from call to call with a
    clock that stands still, and the source of randomness returning one half
    every time ([(0.5).toString(36)] is ["0.i"]). *)
Definition sample_rand (n : nat) : string :=
  String (ascii_of_nat (97 + n mod 26)) "7f3k".
Definition sample_clock (n : nat) : string := "12:00:00".
Definition stuck_rand (n : nat) : string := "i".

(** Status and timers agree: either the agent rests and nothing sleeps, or
    exactly one continuation of the simulation sleeps, the one that belongs to
    the status shown. *)
Definition in_step (s : AgentStatus) (ts : list (nat * list Instr)) : Prop :=
  (state s = idle /\ ts = []) \/
  (s = analyzing_status /\ ts = [(1500, after_analysis)]) \/
  (s = building_status /\ ts = [(2000, after_build)]) \/
  (s = deploying_status /\ ts = [(1500, after_upload)]).

Definition consistent (w : World) : Prop := in_step (status w) (timers w).

(** The statuses the component ever writes: the initial value of
    [useState] and the four of the simulation. *)
Definition written_statuses : list AgentStatus :=
  [ initial_status; analyzing_status; building_status; deploying_status;
    complete_status ].

(** The messages the component logs, by level: the string literals and
    templates passed to [addLog]. *)
Definition known (m : string) (l : LogLevel) : Prop :=
  match l with
  | info =>
      (exists cmd, m = "> " ++ cmd)
      \/ m = help_message
      \/ In m [ "Initiating deployment sequence...";
                "Executing: npm run build";
                "Optimizing assets for edge distribution...";
                "Verifying integrity..." ]
  | success =>
      In m [ "Repository analysis complete. Detected React/Vite project.";
             "Build successful. Output directory: /dist";
             "Deployment successful! URL: https://autodeploy-agent.vercel.app" ]
  | warning => m = busy_message
  | error => exists cmd, m = "Command not recognized: " ++ cmd
  end.

Definition known_entry (e : LogEntry) : Prop := known (message e) (level e).

(** One task leaves the log alone or appends two entries to it, built by
    two consecutive calls of [addLog]. *)
Definition grows (rand clock : nat -> string) (w w' : World) : Prop :=
  (logs w' = logs w /\ draws w' = draws w)
  \/ (exists m1 l1 m2 l2,
        known m1 l1 /\ known m2 l2
        /\ logs w' =
             (logs w ++ [ newEntry rand clock (draws w) m1 l1;
                          newEntry rand clock (S (draws w)) m2 l2 ])%list
        /\ draws w' = S (S (draws w))).

(** Every identifier in the log is a draw made earlier, and no draw occurs
    twice in it. *)
Definition drawn (rand : nat -> string) (w : World) : Prop :=
  exists ns : list nat,
    map id (logs w) = map rand ns
    /\ NoDup ns
    /\ Forall (fun n => n < draws w) ns.

(** A source of identifiers that never repeats itself: the [n]-th is [n]
    letters long. *)
Definition tally_rand (n : nat) : string :=
  string_of_list_ascii (repeat "z"%char n).

(** Only WhiteSpace and LineTerminator code units. *)
Fixpoint all_white (s : string) : bool :=
  match s with
  | EmptyString => true
  | String c s' => is_white_space c && all_white s'
  end.

Lemma AgentState_eqb_spec (a b : AgentState) :
  reflect (a = b) (AgentState_eqb a b).
Proof. destruct a, b; constructor; congruence. Qed.

(** ** The five branches of the interpreter *)

Section Branches.

Variable snapshot : AgentStatus.
Variable cmd : string.

Lemma processCommand_busy :
  state snapshot <> idle ->
  processCommand snapshot cmd =
    [ IAddLog ("> " ++ cmd) info; ISetInput "";
      IAddLog busy_message warning ].
Proof.
  intros Hbusy. unfold processCommand.
  destruct (AgentState_eqb_spec (state snapshot) idle) as [Heq | _];
    [contradiction | reflexivity].
Qed.

Hypothesis Hidle : state snapshot = idle.

Lemma processCommand_help :
  toLowerCase (trim cmd) = "help" ->
  processCommand snapshot cmd =
    [ IAddLog ("> " ++ cmd) info; ISetInput "";
      IAddLog help_message info ].
Proof.
  intros Hn. unfold processCommand. rewrite Hidle, Hn. reflexivity.
Qed.

Lemma processCommand_clear :
  toLowerCase (trim cmd) = "clear" ->
  processCommand snapshot cmd =
    [ IAddLog ("> " ++ cmd) info; ISetInput ""; ISetLogs [] ].
Proof.
  intros Hn. unfold processCommand. rewrite Hidle, Hn. reflexivity.
Qed.

Lemma processCommand_deploy :
  includes (toLowerCase (trim cmd)) "deploy" = true ->
  processCommand snapshot cmd =
    IAddLog ("> " ++ cmd) info :: ISetInput "" :: runDeploymentSimulation.
Proof.
  intros Hn. unfold processCommand. rewrite Hidle. cbn [AgentState_eqb negb].
  destruct (String.eqb_spec (toLowerCase (trim cmd)) "help") as [E | _].
  { rewrite E in Hn. discriminate Hn. }
  destruct (String.eqb_spec (toLowerCase (trim cmd)) "clear") as [E | _].
  { rewrite E in Hn. discriminate Hn. }
  rewrite Hn. reflexivity.
Qed.

Lemma processCommand_other :
  toLowerCase (trim cmd) <> "help" ->
  toLowerCase (trim cmd) <> "clear" ->
  includes (toLowerCase (trim cmd)) "deploy" = false ->
  processCommand snapshot cmd =
    [ IAddLog ("> " ++ cmd) info; ISetInput "";
      IAddLog ("Command not recognized: " ++ cmd) error ].
Proof.
  intros Hh Hc Hd. unfold processCommand. rewrite Hidle, Hd.
  apply String.eqb_neq in Hh, Hc. rewrite Hh, Hc. reflexivity.
Qed.

(** While idle the interpreter takes one of four shapes. *)
Lemma processCommand_idle_cases :
  (exists m l, processCommand snapshot cmd =
     [ IAddLog ("> " ++ cmd) info; ISetInput ""; IAddLog m l ]) \/
  processCommand snapshot cmd =
    [ IAddLog ("> " ++ cmd) info; ISetInput ""; ISetLogs [] ] \/
  processCommand snapshot cmd =
    IAddLog ("> " ++ cmd) info :: ISetInput "" :: runDeploymentSimulation.
Proof.
  destruct (String.eqb_spec (toLowerCase (trim cmd)) "help") as [Eh | Nh].
  { left. eexists _, _. now apply processCommand_help. }
  destruct (String.eqb_spec (toLowerCase (trim cmd)) "clear") as [Ec | Nc].
  { right; left. now apply processCommand_clear. }
  destruct (includes (toLowerCase (trim cmd)) "deploy") eqn:Ed.
  { right; right. now apply processCommand_deploy. }
  left. eexists _, _. now apply processCommand_other.
Qed.

End Branches.

(** ** Status and timers stay consistent *)

Section Invariant.

Variable rand : nat -> string.
Variable clock : nat -> string.

Local Abbreviation run := (run rand clock).
Local Abbreviation submit := (submit rand clock).
Local Abbreviation timeout := (timeout rand clock).
Local Abbreviation step := (step rand clock).
Local Abbreviation exec := (exec rand clock).
Local Abbreviation reachable := (reachable rand clock).

Lemma consistent_init : consistent init.
Proof. left. split; reflexivity. Qed.

Lemma consistent_idle w :
  consistent w -> state (status w) = idle -> timers w = [].
Proof.
  intros [[_ Ht] | [[Hs _] | [[Hs _] | [Hs _]]]] Hidle; trivial;
    rewrite Hs in Hidle; discriminate Hidle.
Qed.

Lemma consistent_busy w :
  consistent w -> timers w <> [] ->
  state (status w) = analyzing \/ state (status w) = building \/
  state (status w) = deploying.
Proof.
  intros [[_ Ht] | [[Hs _] | [[Hs _] | [Hs _]]]] Hne;
    [contradiction | rewrite Hs; cbn; auto ..].
Qed.

Lemma consistent_single w : consistent w -> List.length (timers w) <= 1.
Proof.
  intros [[_ Ht] | [[_ Ht] | [[_ Ht] | [_ Ht]]]]; rewrite Ht; cbn; lia.
Qed.

(** A refused submission touches neither the status nor the timers. *)
Lemma submit_busy_frame w cmd :
  state (status w) <> idle ->
  status (submit cmd w) = status w /\ timers (submit cmd w) = timers w.
Proof.
  intros Hbusy. unfold submit.
  rewrite (processCommand_busy _ cmd Hbusy). split; reflexivity.
Qed.

Lemma consistent_submit w cmd : consistent w -> consistent (submit cmd w).
Proof.
  intros Hw. unfold consistent.
  destruct (AgentState_eqb_spec (state (status w)) idle) as [Hidle | Hbusy].
  - pose proof (consistent_idle w Hw Hidle) as Ht. unfold submit.
    destruct (processCommand_idle_cases (status w) cmd Hidle)
      as [(m & l & E) | [E | E]]; rewrite E; cbn.
    + left. auto.
    + left. auto.
    + right; left. rewrite Ht. split; reflexivity.
  - destruct (submit_busy_frame w cmd Hbusy) as [-> ->]. exact Hw.
Qed.

Lemma timeout_nothing w i : timers w = [] -> timeout i w = w.
Proof.
  intros Ht. unfold timeout. rewrite Ht. now destruct i.
Qed.

Lemma timeout_single w ms k i :
  timers w = [(ms, k)] ->
  timeout i w = match i with 0 => run k (wake 0 w) | S _ => w end.
Proof.
  intros Ht. unfold timeout. rewrite Ht.
  destruct i as [| i]; [reflexivity | now destruct i].
Qed.

Lemma wake_single w ms k :
  timers w = [(ms, k)] ->
  wake 0 w =
    {| logs := logs w; input := input w; status := status w;
       draws := draws w; timers := []; trace := trace w |}.
Proof.
  intros Ht. unfold wake. rewrite Ht. reflexivity.
Qed.

Lemma consistent_timeout w i : consistent w -> consistent (timeout i w).
Proof.
  intros Hw.
  destruct Hw as [[Hs Ht] | [[Hs Ht] | [[Hs Ht] | [Hs Ht]]]].
  - rewrite (timeout_nothing w i Ht). left. now split.
  - rewrite (timeout_single w _ _ i Ht). destruct i as [| i].
    + rewrite (wake_single w _ _ Ht). right; right; left.
      split; reflexivity.
    + right; left. now split.
  - rewrite (timeout_single w _ _ i Ht). destruct i as [| i].
    + rewrite (wake_single w _ _ Ht). right; right; right.
      split; reflexivity.
    + right; right; left. now split.
  - rewrite (timeout_single w _ _ i Ht). destruct i as [| i].
    + rewrite (wake_single w _ _ Ht). left. split; reflexivity.
    + right; right; right. now split.
Qed.

Lemma consistent_step w ev : consistent w -> consistent (step w ev).
Proof.
  intros Hw. destruct ev as [text | key | | i]; cbn.
  - exact Hw.
  - unfold handleKeyDown.
    destruct ((key =? "Enter") && truthy (input w));
      [now apply consistent_submit | exact Hw].
  - unfold clickDeploy.
    destruct (AgentState_eqb (state (status w)) idle);
      [now apply consistent_submit | exact Hw].
  - now apply consistent_timeout.
Qed.

Lemma consistent_exec evs : forall w, consistent w -> consistent (exec evs w).
Proof.
  induction evs as [| ev evs IH]; intros w Hw; cbn.
  - exact Hw.
  - apply IH. now apply consistent_step.
Qed.

Lemma reachable_consistent w : reachable w -> consistent w.
Proof.
  intros [evs ->]. apply consistent_exec, consistent_init.
Qed.

Lemma exec_app evs1 evs2 w : exec (evs1 ++ evs2)%list w = exec evs2 (exec evs1 w).
Proof. apply fold_left_app. Qed.

Lemma reachable_exec evs w : reachable w -> reachable (exec evs w).
Proof.
  intros [evs0 ->]. exists (evs0 ++ evs)%list. now rewrite exec_app.
Qed.

End Invariant.

(** ** What a body leaves in the trace *)

Section Traces.

Variable rand : nat -> string.
Variable clock : nat -> string.

Local Abbreviation run := (run rand clock).

Lemma transitions_app (es1 es2 : list Effect) :
  transitions (es1 ++ es2) = (transitions es1 ++ transitions es2)%list.
Proof.
  induction es1 as [| e es1 IH]; [reflexivity |].
  destruct e; cbn; now rewrite IH.
Qed.

(** A task only ever adds to the trace. *)
Lemma run_trace_extends body :
  forall w, exists es, trace (run body w) = (trace w ++ es)%list.
Proof.
  induction body as [| i k IH]; intros w.
  - exists []. cbn. now rewrite app_nil_r.
  - destruct i; cbn;
      try (match goal with
           | |- context [run k ?w'] => destruct (IH w') as [es Hes]
           end;
           rewrite Hes; cbn; unfold record; rewrite <- app_assoc;
           eexists; reflexivity).
    cbn. unfold record. eexists; reflexivity.
Qed.

End Traces.

(** ** The command interpreter *)

Section Interpreter.

Variable rand : nat -> string.
Variable clock : nat -> string.

Local Abbreviation newEntry := (newEntry rand clock).
Local Abbreviation addLog := (addLog rand clock).
Local Abbreviation run := (run rand clock).
Local Abbreviation submit := (submit rand clock).
Local Abbreviation handleKeyDown := (handleKeyDown rand clock).

(** A body of echo, input reset and one more [addLog]. *)
Lemma run_echo_and_one w cmd m l :
  run [ IAddLog ("> " ++ cmd) info; ISetInput ""; IAddLog m l ] w =
  {| logs := logs w ++ [ newEntry (draws w) ("> " ++ cmd) info;
                         newEntry (S (draws w)) m l ];
     input := "";
     status := status w;
     draws := S (S (draws w));
     timers := timers w;
     trace := trace w ++ [ EAppend (newEntry (draws w) ("> " ++ cmd) info);
                           ESetInput "";
                           EAppend (newEntry (S (draws w)) m l) ] |}.
Proof.
  unfold run, addLog, setInput, record. cbn.
  now rewrite <- !app_assoc.
Qed.

(** C3. A submission made while the agent is not idle leaves the echo entry
    and then one warning entry "Agent is busy. Please wait." in the log,
    whatever the text was: the log shows the old entries, then "> <rawText>"
    at level info, then the busy message at level warning. The status is
    untouched, no status transition is recorded and no continuation is put
    to sleep.  (The trace shows the one further write of every submission,
    the reset of the text field.) *)
Theorem busy_submission_is_dropped (w : World) (cmd : string) :
  state (status w) <> idle ->
  logs (submit cmd w) =
    (logs w ++ [ newEntry (draws w) ("> " ++ cmd) info;
                 newEntry (S (draws w)) "Agent is busy. Please wait." warning ])%list
  /\ map shown (logs (submit cmd w)) =
       (map shown (logs w) ++
        [ (("> " ++ cmd)%string, info);
          ("Agent is busy. Please wait.", warning) ])%list
  /\ map id (logs (submit cmd w)) =
       (map id (logs w) ++ [ rand (draws w); rand (S (draws w)) ])%list
  /\ status (submit cmd w) = status w
  /\ timers (submit cmd w) = timers w
  /\ transitions (trace (submit cmd w)) = transitions (trace w)
  /\ trace (submit cmd w) =
       (trace w ++ [ EAppend (newEntry (draws w) ("> " ++ cmd) info);
                     ESetInput "";
                     EAppend (newEntry (S (draws w))
                                "Agent is busy. Please wait." warning) ])%list.
Proof.
  intros Hbusy. unfold submit.
  rewrite (processCommand_busy _ cmd Hbusy), run_echo_and_one. cbn.
  split; [reflexivity |].
  split; [now rewrite map_app |].
  split; [now rewrite map_app |].
  split; [reflexivity |]. split; [reflexivity |].
  split; [| reflexivity].
  rewrite transitions_app. cbn. now rewrite app_nil_r.
Qed.

(** C5. Submitting text that normalises to "clear" while idle leaves a log of
    length 0, the echo of this very submission included, and the status as it
    was. *)
Theorem clear_empties_the_log (w : World) (cmd : string) :
  state (status w) = idle ->
  toLowerCase (trim cmd) = "clear" ->
  logs (submit cmd w) = []
  /\ List.length (logs (submit cmd w)) = 0
  /\ status (submit cmd w) = status w
  /\ timers (submit cmd w) = timers w
  /\ trace (submit cmd w) =
       (trace w ++ [ EAppend (newEntry (draws w) ("> " ++ cmd) info);
                     ESetInput "";
                     ESetLogs [] ])%list.
Proof.
  intros Hidle Hclear. unfold submit.
  rewrite (processCommand_clear _ cmd Hidle Hclear). cbn.
  repeat split. unfold record. cbn. now rewrite <- !app_assoc.
Qed.

(** C7. Text that normalises to neither "help" nor "clear" and does not
    contain "deploy", submitted while idle, adds the echo and one error entry
    "Command not recognized: <rawText>" with the text as typed; the status is
    unchanged and nothing is put to sleep. *)
Theorem unrecognized_command_is_reported (w : World) (cmd : string) :
  state (status w) = idle ->
  toLowerCase (trim cmd) <> "help" ->
  toLowerCase (trim cmd) <> "clear" ->
  includes (toLowerCase (trim cmd)) "deploy" = false ->
  logs (submit cmd w) =
    (logs w ++ [ newEntry (draws w) ("> " ++ cmd) info;
                 newEntry (S (draws w)) ("Command not recognized: " ++ cmd) error ])%list
  /\ status (submit cmd w) = status w
  /\ timers (submit cmd w) = timers w
  /\ transitions (trace (submit cmd w)) = transitions (trace w).
Proof.
  intros Hidle Hh Hc Hd. unfold submit.
  rewrite (processCommand_other _ cmd Hidle Hh Hc Hd), run_echo_and_one. cbn.
  repeat split. rewrite transitions_app. cbn. now rewrite app_nil_r.
Qed.

(** C10. "status" and "analyze", both named by the help text, have no branch
    of their own: submitted while idle they get the error entry of any
    unrecognised text and change no status. *)
Theorem status_and_analyze_are_unrecognized (w : World) (cmd : string) :
  state (status w) = idle ->
  cmd = "status" \/ cmd = "analyze" ->
  includes help_message cmd = true
  /\ processCommand (status w) cmd =
       [ IAddLog ("> " ++ cmd) info; ISetInput "";
         IAddLog ("Command not recognized: " ++ cmd) error ]
  /\ logs (submit cmd w) =
       (logs w ++ [ newEntry (draws w) ("> " ++ cmd) info;
                    newEntry (S (draws w)) ("Command not recognized: " ++ cmd) error ])%list
  /\ status (submit cmd w) = status w
  /\ timers (submit cmd w) = timers w.
Proof.
  intros Hidle Hcmd.
  assert (Hbody : processCommand (status w) cmd =
      [ IAddLog ("> " ++ cmd) info; ISetInput "";
        IAddLog ("Command not recognized: " ++ cmd) error ]).
  { apply processCommand_other; trivial;
      destruct Hcmd as [-> | ->]; (discriminate || reflexivity). }
  split; [destruct Hcmd as [-> | ->]; reflexivity |].
  split; [exact Hbody |].
  unfold submit. rewrite Hbody, run_echo_and_one. repeat split.
Qed.

(** The log after the first task of the simulation. *)
Lemma submit_deploy_log w cmd :
  state (status w) = idle ->
  includes (toLowerCase (trim cmd)) "deploy" = true ->
  logs (submit cmd w) =
    (logs w ++ [ newEntry (draws w) ("> " ++ cmd) info;
                 newEntry (S (draws w))
                   "Initiating deployment sequence..." info ])%list.
Proof.
  intros Hidle Hdep. unfold submit.
  rewrite (processCommand_deploy _ cmd Hidle Hdep). cbn.
  now rewrite <- app_assoc.
Qed.

(** Whatever branch is taken, the body starts with the echo and never logs
    the echo again, the statements after an [await] included. *)
Lemma processCommand_echo snapshot cmd :
  exists rest,
    processCommand snapshot cmd = IAddLog ("> " ++ cmd) info :: rest
    /\ filter (is_echo_of cmd) rest = [].
Proof.
  unfold processCommand. eexists. split; [reflexivity |].
  destruct (negb (AgentState_eqb (state snapshot) idle)); [reflexivity |].
  destruct (toLowerCase (trim cmd) =? "help"); [reflexivity |].
  destruct (toLowerCase (trim cmd) =? "clear"); [reflexivity |].
  destruct (includes (toLowerCase (trim cmd)) "deploy"); reflexivity.
Qed.

(** The entries a body logs after the echo are not the echo. *)
Lemma run_echo_and_one_log w cmd m l :
  m <> "> " ++ cmd ->
  exists e,
    logs (run [ IAddLog ("> " ++ cmd) info; ISetInput ""; IAddLog m l ] w) =
      (logs w ++ [ newEntry (draws w) ("> " ++ cmd) info; e ])%list
    /\ message e <> "> " ++ cmd.
Proof.
  intros Hm. rewrite run_echo_and_one. cbn.
  exists (newEntry (S (draws w)) m l). split; [reflexivity | exact Hm].
Qed.

(** C4. A non-empty text that is submitted gets its echo "> <rawText>" at
    level info as the first effect of the submission: the submission is the
    call of [addLog] that puts the echo at the end of the log, with status
    and timers still as they were, followed by the rest of the body, which
    decides on the busy check and the dispatch and never logs the echo
    again. In the log the submission leaves behind, the echo stands right
    behind the old entries and is the one echo among the new ones (unless
    the submission is the "clear" of an idle agent, which wipes it with the
    rest). Pressing Enter on that text is such a submission. *)
Theorem echo_is_the_first_effect (w : World) (cmd : string) :
  cmd <> "" ->
  let echo := newEntry (draws w) ("> " ++ cmd) info in
  (exists rest,
      processCommand (status w) cmd = IAddLog ("> " ++ cmd) info :: rest
      /\ filter (is_echo_of cmd) rest = []
      /\ submit cmd w = run rest (addLog ("> " ++ cmd) info w))
  /\ (logs (addLog ("> " ++ cmd) info w) = (logs w ++ [echo])%list
      /\ shown echo = ("> " ++ cmd, info)
      /\ status (addLog ("> " ++ cmd) info w) = status w
      /\ timers (addLog ("> " ++ cmd) info w) = timers w)
  /\ ((state (status w) = idle
       /\ toLowerCase (trim cmd) = "clear"
       /\ logs (submit cmd w) = [])
      \/ (exists other,
            logs (submit cmd w) = (logs w ++ [echo; other])%list
            /\ message other <> "> " ++ cmd))
  /\ (exists later,
        trace (submit cmd w) = (trace w ++ EAppend echo :: later)%list)
  /\ (input w = cmd -> handleKeyDown "Enter" w = submit cmd w).
Proof.
  intros Hne echo. split.
  { destruct (processCommand_echo (status w) cmd) as (rest & E & Hf).
    exists rest. split; [exact E |]. split; [exact Hf |].
    unfold submit. now rewrite E. }
  split; [repeat split |]. split.
  { unfold submit.
    destruct (AgentState_eqb_spec (state (status w)) idle) as [Hidle | Hbusy].
    - destruct (String.eqb_spec (toLowerCase (trim cmd)) "help") as [Eh | Nh].
      { right. rewrite (processCommand_help _ cmd Hidle Eh).
        apply run_echo_and_one_log. discriminate. }
      destruct (String.eqb_spec (toLowerCase (trim cmd)) "clear") as [Ec | Nc].
      { left. rewrite (processCommand_clear _ cmd Hidle Ec). now repeat split. }
      destruct (includes (toLowerCase (trim cmd)) "deploy") eqn:Ed.
      { right. fold (submit cmd w).
        rewrite (submit_deploy_log w cmd Hidle Ed).
        eexists. split; [reflexivity | discriminate]. }
      right. rewrite (processCommand_other _ cmd Hidle Nh Nc Ed).
      apply run_echo_and_one_log. discriminate.
    - right. rewrite (processCommand_busy _ cmd Hbusy).
      apply run_echo_and_one_log. discriminate. }
  split.
  - unfold submit.
    destruct (processCommand_echo (status w) cmd) as (rest & -> & _).
    cbn.
    destruct (run_trace_extends rand clock rest
                (addLog ("> " ++ cmd) info w)) as [es Hes].
    exists es. cbn in Hes. rewrite Hes. unfold record.
    now rewrite <- app_assoc.
  - intros Hin. unfold handleKeyDown, truthy. rewrite Hin.
    apply String.eqb_neq in Hne. now rewrite Hne.
Qed.

(** C6, as the code has it. The key handler submits nothing when the text
    field is empty, and nothing for a key other than Enter: the component is
    left exactly as it was. Any non-empty text, blanks included, is submitted
    on Enter. *)
Theorem empty_input_is_not_submitted (w : World) (key : string) :
  (input w = "" -> handleKeyDown key w = w)
  /\ (key <> "Enter" -> handleKeyDown key w = w)
  /\ (input w <> "" -> handleKeyDown "Enter" w = submit (input w) w).
Proof.
  unfold handleKeyDown, truthy. repeat split.
  - intros ->. now rewrite andb_false_r.
  - intros Hk. apply String.eqb_neq in Hk. now rewrite Hk.
  - intros Hne. apply String.eqb_neq in Hne. now rewrite Hne.
Qed.

(** C9, as the code has it. [addLog] always succeeds: it puts one new entry
    with the given message and level at the end of the log and leaves the
    entries before it, the status and the timers alone. The identifier is
    the draw from the random source, checked against nothing: it is new
    exactly when the draw is not an identifier already in the log. *)
Theorem addLog_appends_at_the_end (w : World) (msg : string) (lvl : LogLevel) :
  let e := newEntry (draws w) msg lvl in
  logs (addLog msg lvl w) = (logs w ++ [e])%list
  /\ message e = msg /\ level e = lvl /\ id e = rand (draws w)
  /\ status (addLog msg lvl w) = status w
  /\ timers (addLog msg lvl w) = timers w
  /\ (NoDup (map id (logs w)) ->
      (NoDup (map id (logs (addLog msg lvl w))) <->
       ~ In (rand (draws w)) (map id (logs w)))).
Proof.
  cbn. repeat split; rewrite map_app in *; cbn in *.
  - intros Hnd Hin.
    apply NoDup_remove in Hnd. rewrite app_nil_r in Hnd. now apply Hnd.
  - intros Hfresh. apply NoDup_app; trivial.
    + repeat constructor. intros [].
    + intros a Ha [<- | []]. contradiction.
Qed.

End Interpreter.

(** ** The pipeline, task by task *)

Section Pipeline.

Variable rand : nat -> string.
Variable clock : nat -> string.

Local Abbreviation newEntry := (newEntry rand clock).
Local Abbreviation addLog := (addLog rand clock).
Local Abbreviation run := (run rand clock).
Local Abbreviation submit := (submit rand clock).
Local Abbreviation handleKeyDown := (handleKeyDown rand clock).
Local Abbreviation clickDeploy := (clickDeploy rand clock).
Local Abbreviation timeout := (timeout rand clock).
Local Abbreviation step := (step rand clock).
Local Abbreviation exec := (exec rand clock).
Local Abbreviation reachable := (reachable rand clock).

Ltac run_body :=
  unfold run, addLog, setStatus, setInput, setLogs, suspend, record; cbn;
  rewrite <- ?app_assoc; cbn.

(** First task: the submission up to the first [await]. *)
Lemma submit_deploy w cmd :
  state (status w) = idle ->
  includes (toLowerCase (trim cmd)) "deploy" = true ->
  submit cmd w =
  {| logs := logs w ++
       [ newEntry (draws w) ("> " ++ cmd) info;
         newEntry (S (draws w)) "Initiating deployment sequence..." info ];
     input := "";
     status := analyzing_status;
     draws := S (S (draws w));
     timers := timers w ++ [(1500, after_analysis)];
     trace := trace w ++
       [ EAppend (newEntry (draws w) ("> " ++ cmd) info);
         ESetInput "";
         ESetStatus analyzing_status;
         EAppend (newEntry (S (draws w)) "Initiating deployment sequence..." info);
         ESuspend 1500 ] |}.
Proof.
  intros Hidle Hdep. unfold submit.
  rewrite (processCommand_deploy _ cmd Hidle Hdep).
  unfold runDeploymentSimulation. run_body. reflexivity.
Qed.

(** Second task: from the first [await] to the second. *)
Lemma wake_after_analysis w :
  timers w = [(1500, after_analysis)] ->
  timeout 0 w =
  {| logs := logs w ++
       [ newEntry (draws w)
           "Repository analysis complete. Detected React/Vite project." success;
         newEntry (S (draws w)) "Executing: npm run build" info ];
     input := input w;
     status := building_status;
     draws := S (S (draws w));
     timers := [(2000, after_build)];
     trace := trace w ++
       [ EAppend (newEntry (draws w)
           "Repository analysis complete. Detected React/Vite project." success);
         ESetStatus building_status;
         EAppend (newEntry (S (draws w)) "Executing: npm run build" info);
         ESuspend 2000 ] |}.
Proof.
  intros Ht. rewrite (timeout_single rand clock w _ _ 0 Ht).
  rewrite (wake_single w _ _ Ht).
  unfold after_analysis, runDeploymentSimulation. run_body. reflexivity.
Qed.

(** Third task: from the second [await] to the third. *)
Lemma wake_after_build w :
  timers w = [(2000, after_build)] ->
  timeout 0 w =
  {| logs := logs w ++
       [ newEntry (draws w) "Build successful. Output directory: /dist" success;
         newEntry (S (draws w)) "Optimizing assets for edge distribution..." info ];
     input := input w;
     status := deploying_status;
     draws := S (S (draws w));
     timers := [(1500, after_upload)];
     trace := trace w ++
       [ EAppend (newEntry (draws w)
           "Build successful. Output directory: /dist" success);
         ESetStatus deploying_status;
         EAppend (newEntry (S (draws w))
           "Optimizing assets for edge distribution..." info);
         ESuspend 1500 ] |}.
Proof.
  intros Ht. rewrite (timeout_single rand clock w _ _ 0 Ht).
  rewrite (wake_single w _ _ Ht).
  unfold after_build, runDeploymentSimulation. run_body. reflexivity.
Qed.

(** Last task: from the third [await] to the end of the simulation. *)
Lemma wake_after_upload w :
  timers w = [(1500, after_upload)] ->
  timeout 0 w =
  {| logs := logs w ++
       [ newEntry (draws w) "Verifying integrity..." info;
         newEntry (S (draws w))
           "Deployment successful! URL: https://autodeploy-agent.vercel.app"
           success ];
     input := input w;
     status := complete_status;
     draws := S (S (draws w));
     timers := [];
     trace := trace w ++
       [ EAppend (newEntry (draws w) "Verifying integrity..." info);
         ESetStatus complete_status;
         EAppend (newEntry (S (draws w))
           "Deployment successful! URL: https://autodeploy-agent.vercel.app"
           success) ] |}.
Proof.
  intros Ht. rewrite (timeout_single rand clock w _ _ 0 Ht).
  rewrite (wake_single w _ _ Ht).
  unfold after_upload, runDeploymentSimulation. run_body. reflexivity.
Qed.

(** While the agent is busy the user can only add rejections to the log. *)
Lemma busy_user_step w ev :
  state (status w) <> idle ->
  is_user ev = true ->
  status (step w ev) = status w
  /\ timers (step w ev) = timers w
  /\ transitions (trace (step w ev)) = transitions (trace w)
  /\ exists r, logs (step w ev) = (logs w ++ r)%list
               /\ Forall rejection r /\ List.length r <= 2.
Proof.
  intros Hbusy Huser.
  assert (Hsame : status w = status w /\ timers w = timers w
      /\ transitions (trace w) = transitions (trace w)
      /\ exists r, logs w = (logs w ++ r)%list
                   /\ Forall rejection r /\ List.length r <= 2).
  { repeat split. exists []. rewrite app_nil_r. repeat split; auto. }
  destruct ev as [text | key | | i]; cbn.
  - repeat split.
    + unfold record. rewrite transitions_app. cbn. now rewrite app_nil_r.
    + exists []. rewrite app_nil_r. repeat split; auto.
  - unfold handleKeyDown.
    destruct ((key =? "Enter") && truthy (input w)); [| exact Hsame].
    unfold submit. rewrite (processCommand_busy _ _ Hbusy).
    rewrite (run_echo_and_one rand clock). cbn. repeat split.
    + rewrite transitions_app. cbn. now rewrite app_nil_r.
    + eexists. split; [reflexivity |]. split; [| cbn; lia].
      apply Forall_cons; [| apply Forall_cons; [| apply Forall_nil]].
      * left. split; [reflexivity |]. now exists (input w).
      * right. split; reflexivity.
  - unfold clickDeploy.
    destruct (AgentState_eqb_spec (state (status w)) idle);
      [contradiction | exact Hsame].
  - discriminate Huser.
Qed.

Lemma busy_user_exec us :
  forall w,
    state (status w) <> idle ->
    forallb is_user us = true ->
    status (exec us w) = status w
    /\ timers (exec us w) = timers w
    /\ transitions (trace (exec us w)) = transitions (trace w)
    /\ exists r, logs (exec us w) = (logs w ++ r)%list
                 /\ Forall rejection r
                 /\ List.length r <= 2 * List.length us.
Proof.
  induction us as [| ev us IH]; intros w Hbusy Hus.
  - cbn. repeat split. exists []. rewrite app_nil_r. repeat split; auto.
  - cbn in Hus. apply andb_true_iff in Hus as [Hev Hus].
    destruct (busy_user_step w ev Hbusy Hev)
      as (Hs & Ht & Htr & r1 & Hl1 & Hr1 & Hn1).
    assert (Hbusy' : state (status (step w ev)) <> idle) by now rewrite Hs.
    destruct (IH (step w ev) Hbusy' Hus)
      as (Hs' & Ht' & Htr' & r2 & Hl2 & Hr2 & Hn2).
    change (exec (ev :: us) w) with (exec us (step w ev)).
    rewrite Hs', Ht', Htr', Hs, Ht, Htr. repeat split.
    exists (r1 ++ r2)%list. rewrite Hl2, Hl1, <- app_assoc.
    split; [reflexivity |]. split; [now apply Forall_app |].
    rewrite length_app. cbn [List.length]. lia.
Qed.

Lemma submit_moves w cmd : consistent w -> moves w (submit cmd w).
Proof.
  intros Hw.
  destruct (AgentState_eqb_spec (state (status w)) idle) as [Hidle | Hbusy].
  - pose proof (consistent_idle w Hw Hidle) as Ht. unfold submit.
    destruct (processCommand_idle_cases (status w) cmd Hidle)
      as [(m & l & E) | [E | E]]; rewrite E.
    + rewrite (run_echo_and_one rand clock). left. split; reflexivity.
    + left. split; reflexivity.
    + right; left. cbn. rewrite Ht. repeat split; trivial.
  - left. now apply submit_busy_frame.
Qed.

Lemma timeout_moves w i : consistent w -> moves w (timeout i w).
Proof.
  intros Hw.
  assert (Hstay : moves w w) by (left; split; reflexivity).
  destruct Hw as [[Hs Ht] | [[Hs Ht] | [[Hs Ht] | [Hs Ht]]]].
  - now rewrite (timeout_nothing rand clock w i Ht).
  - destruct i as [| i];
      [| now rewrite (timeout_single rand clock w _ _ (S i) Ht)].
    rewrite (wake_after_analysis w Ht). right; right; left.
    repeat split; trivial.
  - destruct i as [| i];
      [| now rewrite (timeout_single rand clock w _ _ (S i) Ht)].
    rewrite (wake_after_build w Ht). right; right; right; left.
    repeat split; trivial.
  - destruct i as [| i];
      [| now rewrite (timeout_single rand clock w _ _ (S i) Ht)].
    rewrite (wake_after_upload w Ht). right; right; right; right.
    repeat split; trivial.
Qed.

Lemma step_moves w ev : consistent w -> moves w (step w ev).
Proof.
  intros Hw.
  assert (Hstay : moves w w) by (left; split; reflexivity).
  destruct ev as [text | key | | i]; cbn.
  - left. split; reflexivity.
  - unfold handleKeyDown.
    destruct ((key =? "Enter") && truthy (input w));
      [now apply submit_moves | exact Hstay].
  - unfold clickDeploy.
    destruct (AgentState_eqb (state (status w)) idle);
      [now apply submit_moves | exact Hstay].
  - now apply timeout_moves.
Qed.

(** C2. In every execution from the initial render: an idle status means no
    continuation of the simulation is asleep; while one is asleep the status
    is analyzing, building or deploying; and never more than one is asleep.
    The simulation itself takes no such care: wherever it is started it puts
    a further continuation to sleep, so the bound comes from the busy check
    of the interpreter alone. *)
Theorem one_pipeline_at_a_time (evs : list Event) :
  let w := exec evs init in
  (state (status w) = idle -> timers w = [])
  /\ (timers w <> [] ->
      state (status w) = analyzing \/ state (status w) = building \/
      state (status w) = deploying)
  /\ List.length (timers w) <= 1
  /\ (forall w0 : World,
        List.length (timers (run runDeploymentSimulation w0)) =
        S (List.length (timers w0))).
Proof.
  intros w.
  assert (Hw : consistent w) by apply consistent_exec, consistent_init.
  split; [now apply consistent_idle |].
  split; [now apply consistent_busy |].
  split; [now apply consistent_single |].
  intros w0. cbn. rewrite length_app. cbn. lia.
Qed.

(** C8. The simulation writes the progress values 10, 40, 75, 100 in that
    order. In every execution, a task that starts a run sets progress to 10,
    a task during a run never lowers progress, and the task that ends the run
    sets it to 100. *)
Theorem progress_never_decreases_in_a_run (evs : list Event) (ev : Event) :
  let w := exec evs init in
  let w' := step w ev in
  map progress (status_writes runDeploymentSimulation) = [10; 40; 75; 100]%Z
  /\ (timers w = [] -> timers w' <> [] -> progress (status w') = 10%Z)
  /\ (timers w <> [] -> (progress (status w) <= progress (status w'))%Z)
  /\ (timers w <> [] -> timers w' = [] -> progress (status w') = 100%Z).
Proof.
  intros w w'.
  assert (Hw : consistent w) by apply consistent_exec, consistent_init.
  split; [reflexivity |].
  destruct (step_moves w ev Hw)
    as [[Hs Ht] | [(_ & Ht & Hs' & Ht') | [(Hs & Ht & Hs' & Ht')
       | [(Hs & Ht & Hs' & Ht') | (Hs & Ht & Hs' & Ht')]]]];
    subst w'; repeat split; intros;
    try congruence;
    try (rewrite Hs', ?Hs; cbn; lia);
    try (rewrite Hs; lia).
Qed.

(** C1, with the messages counted as the code logs them. From a reachable
    idle state, text whose normal form contains "deploy" sets the status to
    (analyzing, "Analyzing repository structure...", 10); the three timers
    then bring (building, "Running build scripts...", 40), (deploying,
    "Uploading assets to edge...", 75) and (idle, "Deployment Complete",
    100), and no other status is ever written. The log gains the echo and
    the seven messages of the simulation, in order and with their levels;
    whatever the user does meanwhile ([u1], [u2], [u3]) adds only rejections
    in between, at most two entries per event. *)
Theorem deploy_runs_the_pipeline
    (w : World) (cmd : string) (u1 u2 u3 : list Event) :
  reachable w ->
  state (status w) = idle ->
  includes (toLowerCase (trim cmd)) "deploy" = true ->
  forallb is_user u1 = true ->
  forallb is_user u2 = true ->
  forallb is_user u3 = true ->
  let w1 := exec u1 (submit cmd w) in
  let w2 := exec u2 (timeout 0 w1) in
  let w3 := exec u3 (timeout 0 w2) in
  let w4 := timeout 0 w3 in
  status w1 = analyzing_status
  /\ status w2 = building_status
  /\ status w3 = deploying_status
  /\ status w4 = complete_status
  /\ timers w4 = []
  /\ transitions (trace w4) =
       (transitions (trace w) ++
        [ analyzing_status; building_status; deploying_status;
          complete_status ])%list
  /\ exists r1 r2 r3 : list LogEntry,
       (Forall rejection r1 /\ List.length r1 <= 2 * List.length u1)
       /\ (Forall rejection r2 /\ List.length r2 <= 2 * List.length u2)
       /\ (Forall rejection r3 /\ List.length r3 <= 2 * List.length u3)
       /\ map shown (logs w4) =
            (map shown (logs w) ++
             [ (("> " ++ cmd)%string, info);
               ("Initiating deployment sequence...", info) ] ++
             map shown r1 ++
             [ ("Repository analysis complete. Detected React/Vite project.",
                success);
               ("Executing: npm run build", info) ] ++
             map shown r2 ++
             [ ("Build successful. Output directory: /dist", success);
               ("Optimizing assets for edge distribution...", info) ] ++
             map shown r3 ++
             [ ("Verifying integrity...", info);
               ("Deployment successful! URL: https://autodeploy-agent.vercel.app",
                success) ])%list.
Proof.
  intros Hreach Hidle Hdep Hu1 Hu2 Hu3. cbv zeta.
  pose proof (consistent_idle w (reachable_consistent rand clock w Hreach) Hidle)
    as Ht.
  (* the submission *)
  remember (submit cmd w) as s0 eqn:E0.
  rewrite (submit_deploy w cmd Hidle Hdep), Ht in E0. cbn [app] in E0.
  assert (Hb0 : state (status s0) <> idle) by (rewrite E0; discriminate).
  destruct (busy_user_exec u1 s0 Hb0 Hu1) as (Hs1 & Ht1 & Htr1 & r1 & Hl1 & Hr1).
  remember (exec u1 s0) as w1 eqn:E1. clear E1.
  rewrite E0 in Hs1, Ht1, Htr1, Hl1. cbn in Hs1, Ht1, Htr1, Hl1. clear E0 Hb0.
  (* first timer *)
  remember (timeout 0 w1) as s1 eqn:E1.
  rewrite (wake_after_analysis w1 Ht1) in E1.
  assert (Hb1 : state (status s1) <> idle) by (rewrite E1; discriminate).
  destruct (busy_user_exec u2 s1 Hb1 Hu2) as (Hs2 & Ht2 & Htr2 & r2 & Hl2 & Hr2).
  remember (exec u2 s1) as w2 eqn:E2. clear E2.
  rewrite E1 in Hs2, Ht2, Htr2, Hl2. cbn in Hs2, Ht2, Htr2, Hl2. clear E1 Hb1.
  (* second timer *)
  remember (timeout 0 w2) as s2 eqn:E2.
  rewrite (wake_after_build w2 Ht2) in E2.
  assert (Hb2 : state (status s2) <> idle) by (rewrite E2; discriminate).
  destruct (busy_user_exec u3 s2 Hb2 Hu3) as (Hs3 & Ht3 & Htr3 & r3 & Hl3 & Hr3).
  remember (exec u3 s2) as w3 eqn:E3. clear E3.
  rewrite E2 in Hs3, Ht3, Htr3, Hl3. cbn in Hs3, Ht3, Htr3, Hl3. clear E2 Hb2.
  (* third timer *)
  rewrite (wake_after_upload w3 Ht3). cbn.
  repeat (split; [assumption || reflexivity |]).
  split.
  - rewrite transitions_app, Htr3, transitions_app, Htr2, transitions_app,
      Htr1, transitions_app. cbn. now rewrite <- !app_assoc.
  - exists r1, r2, r3. repeat (split; [assumption |]).
    rewrite Hl3, Hl2, Hl1. rewrite !map_app. cbn.
    now rewrite <- !app_assoc.
Qed.

End Pipeline.

(** ** The theorems at concrete inputs *)

(** A run typed as " Deploy now ", with a "clear" attempted while the build
    sleeps. *)
Lemma deploy_runs_the_pipeline_witness :
  let w1 := exec sample_rand sample_clock []
              (submit sample_rand sample_clock " Deploy now " init) in
  let w2 := exec sample_rand sample_clock [Change "clear"; KeyDown "Enter"]
              (timeout sample_rand sample_clock 0 w1) in
  let w3 := exec sample_rand sample_clock []
              (timeout sample_rand sample_clock 0 w2) in
  let w4 := timeout sample_rand sample_clock 0 w3 in
  reachable sample_rand sample_clock init
  /\ state (status init) = idle
  /\ includes (toLowerCase (trim " Deploy now ")) "deploy" = true
  /\ status w4 = complete_status
  /\ timers w4 = [].
Proof.
  assert (Hreach : reachable sample_rand sample_clock init)
    by (exists []; reflexivity).
  assert (Hidle : state (status init) = idle) by reflexivity.
  assert (Hdep : includes (toLowerCase (trim " Deploy now ")) "deploy" = true)
    by reflexivity.
  assert (Hu : forallb is_user [Change "clear"; KeyDown "Enter"] = true)
    by reflexivity.
  pose proof (deploy_runs_the_pipeline sample_rand sample_clock init
                " Deploy now " [] [Change "clear"; KeyDown "Enter"] []
                Hreach Hidle Hdep eq_refl Hu eq_refl) as H.
  cbv zeta in *. destruct H as (_ & _ & _ & Hs & Ht & _).
  split; [exact Hreach |]. split; [exact Hidle |]. split; [exact Hdep |].
  split; [exact Hs | exact Ht].
Defined.

(** The nine rows of the table and the source agree on the statuses set, on
    the messages logged and on the delays, each in order; seven of the rows
    log a message, two only wait. *)
Lemma spec_phases_agree_with_source :
  List.length spec_phases = 9
  /\ flat_map (fun p => option_list (phase_status p)) spec_phases =
       status_writes runDeploymentSimulation
  /\ flat_map phase_logs spec_phases = log_writes runDeploymentSimulation
  /\ flat_map (fun p => option_list (phase_delay p)) spec_phases =
       awaits runDeploymentSimulation
  /\ List.length (log_writes runDeploymentSimulation) = 7.
Proof. repeat split. Qed.

(** The run of "deploy" from the initial render logs the echo and seven
    messages: eight entries, not the echo and nine. *)
Lemma pipeline_logs_seven_messages :
  let w := exec sample_rand sample_clock
             [Change "deploy"; KeyDown "Enter"; Timeout 0; Timeout 0; Timeout 0]
             init in
  status w = complete_status
  /\ timers w = []
  /\ map shown (logs w) =
       [ ("> deploy", info);
         ("Initiating deployment sequence...", info);
         ("Repository analysis complete. Detected React/Vite project.", success);
         ("Executing: npm run build", info);
         ("Build successful. Output directory: /dist", success);
         ("Optimizing assets for edge distribution...", info);
         ("Verifying integrity...", info);
         ("Deployment successful! URL: https://autodeploy-agent.vercel.app",
          success) ]
  /\ List.length (log_writes runDeploymentSimulation) <> 9
  /\ List.length (logs w) <> 1 + 9.
Proof.
  cbv zeta. repeat split; try reflexivity; vm_compute; discriminate.
Qed.

Lemma one_pipeline_at_a_time_witness :
  let w := exec sample_rand sample_clock
             [ClickDeploy; Change "deploy"; KeyDown "Enter"; ClickDeploy]
             init in
  state (status w) = analyzing /\ List.length (timers w) = 1.
Proof.
  pose proof (one_pipeline_at_a_time sample_rand sample_clock
                [ClickDeploy; Change "deploy"; KeyDown "Enter"; ClickDeploy])
    as H.
  cbv zeta in H. destruct H as (_ & _ & Hle & _).
  split; [reflexivity |].
  apply Nat.le_antisymm; [exact Hle | vm_compute; lia].
Defined.

Lemma busy_submission_is_dropped_witness :
  let w := submit sample_rand sample_clock "deploy" init in
  state (status w) <> idle
  /\ map shown (logs (submit sample_rand sample_clock "clear" w)) =
       [ ("> deploy", info);
         ("Initiating deployment sequence...", info);
         ("> clear", info);
         ("Agent is busy. Please wait.", warning) ]
  /\ status (submit sample_rand sample_clock "clear" w) = analyzing_status
  /\ timers (submit sample_rand sample_clock "deploy" w) =
       [(1500, after_analysis)].
Proof.
  cbv zeta.
  assert (Hbusy : state (status (submit sample_rand sample_clock "deploy" init))
                  <> idle) by discriminate.
  split; [exact Hbusy |].
  destruct (busy_submission_is_dropped sample_rand sample_clock
              _ "clear" Hbusy) as (_ & Hshown & _ & Hstatus & _).
  destruct (busy_submission_is_dropped sample_rand sample_clock
              _ "deploy" Hbusy) as (_ & _ & _ & _ & Htimers & _).
  split; [rewrite Hshown; reflexivity |].
  split; [rewrite Hstatus; reflexivity | rewrite Htimers; reflexivity].
Defined.

Lemma echo_is_the_first_effect_witness :
  "status" <> ""
  /\ map shown (logs (addLog sample_rand sample_clock "> status" info init)) =
       [ ("> status", info) ]
  /\ map shown (logs (submit sample_rand sample_clock "status" init)) =
       [ ("> status", info); ("Command not recognized: status", error) ]
  /\ exists later,
       trace (submit sample_rand sample_clock "status" init) =
       EAppend (newEntry sample_rand sample_clock 0 "> status" info) :: later.
Proof.
  assert (Hne : "status" <> "") by discriminate.
  split; [exact Hne |].
  pose proof (echo_is_the_first_effect sample_rand sample_clock
                init "status" Hne) as H.
  cbv zeta in H. destruct H as (_ & (Hecho & _) & _ & Htrace & _).
  cbn [append] in Hecho.
  split; [rewrite Hecho; reflexivity |].
  split; [reflexivity | exact Htrace].
Defined.

Lemma clear_empties_the_log_witness :
  let w := submit sample_rand sample_clock "help" init in
  List.length (logs w) = 2
  /\ state (status w) = idle
  /\ toLowerCase (trim "  CLEAR ") = "clear"
  /\ logs (submit sample_rand sample_clock "  CLEAR " w) = [].
Proof.
  cbv zeta. split; [reflexivity |]. split; [reflexivity |].
  split; [reflexivity |].
  exact (proj1 (clear_empties_the_log sample_rand sample_clock
                  (submit sample_rand sample_clock "help" init) "  CLEAR "
                  eq_refl eq_refl)).
Defined.

(** Three blanks are trimmed to nothing, yet Enter submits them. *)
Lemma blank_input_is_submitted :
  let w := setInput "   " init in
  trim (input w) = ""
  /\ map shown (logs (handleKeyDown sample_rand sample_clock "Enter" w)) =
       [ (">    ", info); ("Command not recognized:    ", error) ]
  /\ handleKeyDown sample_rand sample_clock "Enter" w <> w.
Proof.
  cbv zeta. repeat split. discriminate.
Qed.

Lemma empty_input_is_not_submitted_witness :
  input init = ""
  /\ handleKeyDown sample_rand sample_clock "Enter" init = init.
Proof.
  split; [reflexivity |].
  exact (proj1 (empty_input_is_not_submitted sample_rand sample_clock
                  init "Enter") eq_refl).
Defined.

Lemma unrecognized_command_is_reported_witness :
  toLowerCase (trim "Redeplo y") <> "help"
  /\ includes (toLowerCase (trim "Redeplo y")) "deploy" = false
  /\ map shown (logs (submit sample_rand sample_clock "Redeplo y" init)) =
       [ ("> Redeplo y", info); ("Command not recognized: Redeplo y", error) ].
Proof.
  assert (Hh : toLowerCase (trim "Redeplo y") <> "help") by discriminate.
  assert (Hc : toLowerCase (trim "Redeplo y") <> "clear") by discriminate.
  split; [exact Hh |]. split; [reflexivity |].
  rewrite (proj1 (unrecognized_command_is_reported sample_rand sample_clock
                    init "Redeplo y" eq_refl Hh Hc eq_refl)).
  reflexivity.
Defined.

Lemma progress_never_decreases_in_a_run_witness :
  let w := exec sample_rand sample_clock [ClickDeploy; Timeout 0] init in
  timers w <> []
  /\ (progress (status w) <=
      progress (status (step sample_rand sample_clock w (Timeout 0))))%Z.
Proof.
  cbv zeta.
  assert (Hrun : timers (exec sample_rand sample_clock
                           [ClickDeploy; Timeout 0] init) <> [])
    by discriminate.
  split; [exact Hrun |].
  exact (proj1 (proj2 (proj2 (progress_never_decreases_in_a_run
                                sample_rand sample_clock
                                [ClickDeploy; Timeout 0] (Timeout 0)))) Hrun).
Defined.

(** With the random source stuck at one half, the second entry gets the
    identifier of the first. *)
Lemma addLog_can_repeat_an_id :
  let w1 := addLog stuck_rand sample_clock "first" info init in
  let w2 := addLog stuck_rand sample_clock "second" success w1 in
  map id (logs w1) = ["i"]
  /\ map id (logs w2) = ["i"; "i"]
  /\ In (id (newEntry stuck_rand sample_clock (draws w1) "second" success))
        (map id (logs w1))
  /\ ~ NoDup (map id (logs w2)).
Proof.
  cbv zeta. repeat split; [now left |].
  intros Hnd. inversion Hnd as [| x l Hin _]. apply Hin. now left.
Qed.

Lemma addLog_appends_at_the_end_witness :
  let w := addLog sample_rand sample_clock "first" info init in
  NoDup (map id (logs w))
  /\ NoDup (map id (logs (addLog sample_rand sample_clock "second" error w))).
Proof.
  cbv zeta.
  assert (Hnd : NoDup (map id (logs (addLog sample_rand sample_clock
                                       "first" info init))))
    by (repeat constructor; intros []).
  split; [exact Hnd |].
  apply (proj2 (proj2 (proj2 (proj2 (proj2 (proj2
           (addLog_appends_at_the_end sample_rand sample_clock
              (addLog sample_rand sample_clock "first" info init)
              "second" error)))))) Hnd).
  intros [E | []]. discriminate E.
Defined.

Lemma status_and_analyze_are_unrecognized_witness :
  state (status init) = idle
  /\ map shown (logs (submit sample_rand sample_clock "analyze" init)) =
       [ ("> analyze", info); ("Command not recognized: analyze", error) ].
Proof.
  split; [reflexivity |].
  rewrite (proj1 (proj2 (proj2 (status_and_analyze_are_unrecognized
                                  sample_rand sample_clock init "analyze"
                                  eq_refl (or_intror eq_refl))))).
  reflexivity.
Defined.

(** ** Whole executions *)

Section Executions.

Variable rand : nat -> string.
Variable clock : nat -> string.

Local Abbreviation newEntry := (newEntry rand clock).
Local Abbreviation run := (run rand clock).
Local Abbreviation submit := (submit rand clock).
Local Abbreviation handleKeyDown := (handleKeyDown rand clock).
Local Abbreviation clickDeploy := (clickDeploy rand clock).
Local Abbreviation timeout := (timeout rand clock).
Local Abbreviation step := (step rand clock).
Local Abbreviation exec := (exec rand clock).
Local Abbreviation grows := (grows rand clock).

(** What holds at the start and survives every task from a consistent state
    holds in every execution. *)
Lemma exec_invariant (P : World -> Prop) :
  P init ->
  (forall w ev, consistent w -> P w -> P (step w ev)) ->
  forall evs, P (exec evs init).
Proof.
  intros Hinit Hstep evs.
  enough (H : forall w, consistent w -> P w -> P (exec evs w))
    by (apply H; [apply consistent_init | exact Hinit]).
  induction evs as [| ev evs IH]; intros w Hw HP; cbn.
  - exact HP.
  - apply IH; [now apply consistent_step | now apply Hstep].
Qed.

Lemma known_echo cmd : known ("> " ++ cmd) info.
Proof. left. now exists cmd. Qed.

Lemma grows_two w w' m1 l1 m2 l2 :
  known m1 l1 -> known m2 l2 ->
  logs w' = (logs w ++ [ newEntry (draws w) m1 l1;
                         newEntry (S (draws w)) m2 l2 ])%list ->
  draws w' = S (S (draws w)) ->
  grows w w'.
Proof.
  intros K1 K2 Hl Hd. right. exists m1, l1, m2, l2. auto.
Qed.

(** A submission appends two entries, unless it is the "clear" of an idle
    agent. *)
Lemma submit_grows w cmd :
  grows w (submit cmd w)
  \/ (logs (submit cmd w) = []
      /\ draws (submit cmd w) = S (draws w)
      /\ state (status w) = idle
      /\ toLowerCase (trim cmd) = "clear").
Proof.
  destruct (AgentState_eqb_spec (state (status w)) idle) as [Hidle | Hbusy].
  - destruct (String.eqb_spec (toLowerCase (trim cmd)) "help") as [Eh | Nh].
    { left. unfold submit.
      rewrite (processCommand_help _ cmd Hidle Eh), run_echo_and_one.
      eapply grows_two; [apply known_echo | | reflexivity | reflexivity].
      right; left; reflexivity. }
    destruct (String.eqb_spec (toLowerCase (trim cmd)) "clear") as [Ec | Nc].
    { right. unfold submit. rewrite (processCommand_clear _ cmd Hidle Ec).
      repeat split; trivial. }
    destruct (includes (toLowerCase (trim cmd)) "deploy") eqn:Ed.
    { left. rewrite (submit_deploy rand clock w cmd Hidle Ed).
      eapply grows_two; [apply known_echo | | reflexivity | reflexivity].
      right; right; left; reflexivity. }
    left. unfold submit.
    rewrite (processCommand_other _ cmd Hidle Nh Nc Ed), run_echo_and_one.
    eapply grows_two; [apply known_echo | | reflexivity | reflexivity].
    now exists cmd.
  - left. unfold submit.
    rewrite (processCommand_busy _ cmd Hbusy), run_echo_and_one.
    eapply grows_two; [apply known_echo | | reflexivity | reflexivity].
    reflexivity.
Qed.

(** The same for any task. *)
Lemma step_grows w ev :
  consistent w ->
  grows w (step w ev)
  \/ (logs (step w ev) = []
      /\ draws (step w ev) = S (draws w)
      /\ ev = KeyDown "Enter"
      /\ state (status w) = idle
      /\ toLowerCase (trim (input w)) = "clear").
Proof.
  intros Hw.
  assert (Hstay : grows w w) by (left; split; reflexivity).
  destruct ev as [text | key | | i]; cbn.
  - left. left. split; reflexivity.
  - unfold handleKeyDown.
    destruct (String.eqb_spec key "Enter") as [-> | _]; [| now left].
    destruct (truthy (input w)); [| now left]. cbn [andb].
    destruct (submit_grows w (input w)) as [H | (Hl & Hd & Hi & Hc)];
      [now left | right; repeat split; trivial].
  - unfold clickDeploy.
    destruct (AgentState_eqb (state (status w)) idle); [| now left].
    destruct (submit_grows w "deploy") as [H | (_ & _ & _ & Hc)];
      [now left | discriminate Hc].
  - destruct Hw as [[Hs Ht] | [[Hs Ht] | [[Hs Ht] | [Hs Ht]]]].
    + rewrite (timeout_nothing rand clock w i Ht). now left.
    + destruct i as [| i];
        [| rewrite (timeout_single rand clock w _ _ (S i) Ht); now left].
      rewrite (wake_after_analysis rand clock w Ht). left.
      eapply grows_two; [| | reflexivity | reflexivity]; cbn; auto.
    + destruct i as [| i];
        [| rewrite (timeout_single rand clock w _ _ (S i) Ht); now left].
      rewrite (wake_after_build rand clock w Ht). left.
      eapply grows_two; [| | reflexivity | reflexivity]; cbn; auto 6.
    + destruct i as [| i];
        [| rewrite (timeout_single rand clock w _ _ (S i) Ht); now left].
      rewrite (wake_after_upload rand clock w Ht). left.
      eapply grows_two; [| | reflexivity | reflexivity]; cbn; auto 8.
Qed.

(** The log only ever changes at its end or goes away whole: a task appends
    nothing or two entries behind the entries that were there, or leaves the
    log empty, and the latter only for Enter on text that normalises to
    "clear" while the agent is idle. *)
Theorem log_grows_or_is_cleared (evs : list Event) (ev : Event) :
  let w := exec evs init in
  let w' := step w ev in
  (exists extra,
      logs w' = (logs w ++ extra)%list
      /\ (List.length extra = 0 \/ List.length extra = 2))
  \/ (logs w' = []
      /\ ev = KeyDown "Enter"
      /\ state (status w) = idle
      /\ toLowerCase (trim (input w)) = "clear").
Proof.
  intros w w'.
  assert (Hw : consistent w) by apply consistent_exec, consistent_init.
  destruct (step_grows w ev Hw)
    as [[[Hl _] | (m1 & l1 & m2 & l2 & _ & _ & Hl & _)]
       | (Hl & _ & He & Hi & Hc)]; subst w'.
  - left. exists []. rewrite app_nil_r. auto.
  - left. eexists. split; [exact Hl | now right].
  - right. auto.
Qed.

(** Every entry of every log carries one of the messages the source passes
    to [addLog] with the level it passes there: a warning is always the busy
    message, an error always "Command not recognized: ...". *)
Theorem log_entries_are_known (evs : list Event) :
  let w := exec evs init in
  Forall known_entry (logs w)
  /\ (forall e, In e (logs w) -> level e = warning ->
        message e = "Agent is busy. Please wait.")
  /\ (forall e, In e (logs w) -> level e = error ->
        exists cmd, message e = "Command not recognized: " ++ cmd).
Proof.
  intros w.
  assert (H : Forall known_entry (logs w)).
  { subst w. apply (exec_invariant (fun w => Forall known_entry (logs w))).
    - constructor.
    - intros w ev Hw Hk.
      destruct (step_grows w ev Hw)
        as [[[-> _] | (m1 & l1 & m2 & l2 & K1 & K2 & -> & _)] | (-> & _)];
        trivial.
      apply Forall_app. split; [exact Hk |].
      apply Forall_cons; [exact K1 |]. apply Forall_cons; [exact K2 |].
      constructor. }
  split; [exact H |]. rewrite Forall_forall in H.
  split; intros e He Hlvl; specialize (H e He); unfold known_entry in H;
    rewrite Hlvl in H; exact H.
Qed.

(** In every execution the status is the initial one or one of the four the
    simulation writes: the state is never 'error', and progress stays
    between 0 and 100. *)
Theorem status_is_one_of_five (evs : list Event) :
  let w := exec evs init in
  In (status w) written_statuses
  /\ state (status w) <> st_error
  /\ (0 <= progress (status w) <= 100)%Z.
Proof.
  intros w.
  assert (H : In (status w) written_statuses).
  { subst w. apply (exec_invariant (fun w => In (status w) written_statuses)).
    - now left.
    - intros w ev Hw Hin.
      destruct (step_moves rand clock w ev Hw)
        as [[-> _] | [(_ & _ & -> & _) | [(_ & _ & -> & _)
           | [(_ & _ & -> & _) | (_ & _ & -> & _)]]]];
        trivial; cbn; auto 6. }
  split; [exact H |].
  destruct H as [<- | [<- | [<- | [<- | [<- | []]]]]]; cbn;
    (split; [discriminate | lia]).
Qed.

Lemma settle_upload w :
  timers w = [(1500, after_upload)] ->
  status (timeout 0 w) = complete_status /\ timers (timeout 0 w) = [].
Proof.
  intros Ht. rewrite (wake_after_upload rand clock w Ht). split; reflexivity.
Qed.

Lemma settle_build w :
  timers w = [(2000, after_build)] ->
  status (timeout 0 (timeout 0 w)) = complete_status
  /\ timers (timeout 0 (timeout 0 w)) = [].
Proof.
  intros Ht. apply settle_upload.
  rewrite (wake_after_build rand clock w Ht). reflexivity.
Qed.

Lemma settle_analysis w :
  timers w = [(1500, after_analysis)] ->
  status (timeout 0 (timeout 0 (timeout 0 w))) = complete_status
  /\ timers (timeout 0 (timeout 0 (timeout 0 w))) = [].
Proof.
  intros Ht. apply settle_build.
  rewrite (wake_after_analysis rand clock w Ht). reflexivity.
Qed.

(** A run always comes to its end: from any state of any execution, at most
    three firings of the sleeping timer bring the agent back to idle with
    nothing asleep, and a run that was under way ends at "Deployment
    Complete", 100. *)
Theorem pipeline_always_completes (evs : list Event) :
  let w := exec evs init in
  exists n,
    n <= 3
    /\ let w' := exec (repeat (Timeout 0) n) w in
       state (status w') = idle
       /\ timers w' = []
       /\ (timers w <> [] -> status w' = complete_status).
Proof.
  intros w.
  assert (Hw : consistent w) by apply consistent_exec, consistent_init.
  destruct Hw as [[Hs Ht] | [[Hs Ht] | [[Hs Ht] | [Hs Ht]]]].
  - exists 0. split; [lia |]. cbn. repeat split; trivial. contradiction.
  - exists 3. split; [lia |]. cbn.
    destruct (settle_analysis w Ht) as [-> ->]. repeat split.
  - exists 2. split; [lia |]. cbn.
    destruct (settle_build w Ht) as [-> ->]. repeat split.
  - exists 1. split; [lia |]. cbn.
    destruct (settle_upload w Ht) as [-> ->]. repeat split.
Qed.

(** Text that normalises to "help", submitted while idle, adds the echo and
    one info entry listing the commands; status and timers stay as they
    were. *)
Theorem help_lists_the_commands (w : World) (cmd : string) :
  state (status w) = idle ->
  toLowerCase (trim cmd) = "help" ->
  logs (submit cmd w) =
    (logs w ++ [ newEntry (draws w) ("> " ++ cmd) info;
                 newEntry (S (draws w))
                   "Available commands: deploy, status, clear, analyze" info ])%list
  /\ status (submit cmd w) = status w
  /\ timers (submit cmd w) = timers w.
Proof.
  intros Hidle Hhelp. unfold submit.
  rewrite (processCommand_help _ cmd Hidle Hhelp), run_echo_and_one.
  repeat split.
Qed.

(** Every submission leaves the text field empty. *)
Lemma submit_input w cmd : input (submit cmd w) = "".
Proof.
  unfold submit, processCommand.
  destruct (negb (AgentState_eqb (state (status w)) idle)); [reflexivity |].
  destruct (toLowerCase (trim cmd) =? "help"); [reflexivity |].
  destruct (toLowerCase (trim cmd) =? "clear"); [reflexivity |].
  destruct (includes (toLowerCase (trim cmd)) "deploy"); reflexivity.
Qed.

(** After Enter the text field is empty, whatever was in it and whatever the
    agent was doing; so a second Enter, or any other key, changes nothing
    until new text is typed: a command is never submitted twice. *)
Theorem enter_leaves_the_field_empty (w : World) (key : string) :
  input (handleKeyDown "Enter" w) = ""
  /\ handleKeyDown key (handleKeyDown "Enter" w) = handleKeyDown "Enter" w.
Proof.
  assert (Hin : input (handleKeyDown "Enter" w) = "").
  { unfold handleKeyDown, truthy. cbn [String.eqb Ascii.eqb andb].
    destruct (String.eqb_spec (input w) "") as [E | _]; cbn.
    - exact E.
    - apply submit_input. }
  split; [exact Hin |].
  remember (handleKeyDown "Enter" w) as w1 eqn:E1. clear E1.
  unfold handleKeyDown, truthy. rewrite Hin. cbn. now rewrite andb_false_r.
Qed.

(** The "Deploy Now" button does what typing "deploy" and pressing Enter
    does while the agent is idle: the same log, status, timers and (empty)
    text field. While the agent is busy the button does nothing at all. *)
Theorem deploy_button_is_typing_deploy (w : World) :
  (state (status w) = idle ->
     let a := clickDeploy w in
     let b := handleKeyDown "Enter" (setInput "deploy" w) in
     logs a = logs b /\ input a = input b /\ status a = status b
     /\ draws a = draws b /\ timers a = timers b)
  /\ (state (status w) <> idle -> clickDeploy w = w).
Proof.
  split.
  - intros Hidle. cbv zeta.
    assert (Ea : clickDeploy w = submit "deploy" w)
      by (unfold clickDeploy; now rewrite Hidle).
    assert (Eb : handleKeyDown "Enter" (setInput "deploy" w) =
                 submit "deploy" (setInput "deploy" w)) by reflexivity.
    rewrite Ea, Eb.
    rewrite (submit_deploy rand clock w "deploy" Hidle eq_refl).
    rewrite (submit_deploy rand clock (setInput "deploy" w) "deploy"
               Hidle eq_refl).
    repeat split.
  - intros Hbusy. unfold clickDeploy.
    destruct (AgentState_eqb_spec (state (status w)) idle);
      [contradiction | reflexivity].
Qed.

Lemma NoDup_map_injective {A B : Type} (f : A -> B) (l : list A) :
  (forall x y, f x = f y -> x = y) -> NoDup l -> NoDup (map f l).
Proof.
  intros Hinj Hnd. induction Hnd as [| a l Hin Hnd IH]; cbn; constructor.
  - intros Hf. apply in_map_iff in Hf as (x & Hx & Hxl).
    apply Hinj in Hx. now subst x.
  - exact IH.
Qed.

Lemma drawn_step w ev : consistent w -> drawn rand w -> drawn rand (step w ev).
Proof.
  intros Hw (ns & Hids & Hnd & Hlt).
  destruct (step_grows w ev Hw)
    as [[[Hl Hd] | (m1 & l1 & m2 & l2 & _ & _ & Hl & Hd)] | (Hl & _)].
  - exists ns. now rewrite Hl, Hd.
  - exists (ns ++ [draws w; S (draws w)])%list. rewrite Hl, Hd.
    rewrite !map_app, Hids. split; [reflexivity |]. split.
    + rewrite Forall_forall in Hlt.
      apply NoDup_app; trivial.
      * repeat constructor; cbn; intuition lia.
      * intros n Hn [<- | [<- | []]]; specialize (Hlt _ Hn); lia.
    + apply Forall_app. split.
      * eapply Forall_impl; [| exact Hlt]. cbn. lia.
      * repeat constructor; lia.
  - exists []. rewrite Hl. repeat constructor.
Qed.

(** The rendering uses [log.id] as the key of a log line. As long as the
    random source never returns the same identifier twice, the keys of the
    lines on screen are pairwise distinct in every execution. *)
Theorem log_keys_are_unique (evs : list Event) :
  (forall m n, rand m = rand n -> m = n) ->
  NoDup (map id (logs (exec evs init))).
Proof.
  intros Hinj.
  destruct (exec_invariant (drawn rand)) with (evs := evs)
    as (ns & Hids & Hnd & _).
  - exists []. repeat constructor.
  - apply drawn_step.
  - rewrite Hids. now apply NoDup_map_injective.
Qed.

End Executions.

(** ** Normalisation of the submitted text *)

Lemma lower_unit_white (c : ascii) :
  is_white_space (lower_unit c) = is_white_space c.
Proof. destruct c as [[] [] [] [] [] [] [] []]; reflexivity. Qed.

Lemma lower_unit_idem (c : ascii) : lower_unit (lower_unit c) = lower_unit c.
Proof. destruct c as [[] [] [] [] [] [] [] []]; reflexivity. Qed.

Lemma string_app_assoc (a b c : string) : (a ++ b) ++ c = a ++ (b ++ c).
Proof. induction a as [| x a IH]; cbn; [reflexivity | now rewrite IH]. Qed.

Lemma string_app_nil_r (a : string) : a ++ "" = a.
Proof. induction a as [| x a IH]; cbn; [reflexivity | now rewrite IH]. Qed.

Lemma list_of_string_app (a b : string) :
  list_ascii_of_string (a ++ b) =
  (list_ascii_of_string a ++ list_ascii_of_string b)%list.
Proof. induction a as [| x a IH]; cbn; [reflexivity | now rewrite IH]. Qed.

Lemma string_of_list_app (x y : list ascii) :
  string_of_list_ascii (x ++ y) =
  string_of_list_ascii x ++ string_of_list_ascii y.
Proof. induction x as [| c x IH]; cbn; [reflexivity | now rewrite IH]. Qed.

Lemma reverse_app (a b : string) : reverse (a ++ b) = reverse b ++ reverse a.
Proof.
  unfold reverse. now rewrite list_of_string_app, rev_app_distr, string_of_list_app.
Qed.

Lemma reverse_involutive (s : string) : reverse (reverse s) = s.
Proof.
  unfold reverse.
  now rewrite list_ascii_of_string_of_list_ascii, rev_involutive,
    string_of_list_ascii_of_string.
Qed.

Lemma reverse_cons (c : ascii) (s : string) :
  reverse (String c s) = reverse s ++ String c "".
Proof. change (String c s) with (String c "" ++ s). now rewrite reverse_app. Qed.

Lemma toLowerCase_as_map (s : string) :
  toLowerCase s = string_of_list_ascii (map lower_unit (list_ascii_of_string s)).
Proof. induction s as [| c s IH]; cbn; [reflexivity | now rewrite IH]. Qed.

Lemma toLowerCase_app (a b : string) :
  toLowerCase (a ++ b) = toLowerCase a ++ toLowerCase b.
Proof. induction a as [| x a IH]; cbn; [reflexivity | now rewrite IH]. Qed.

Lemma toLowerCase_idem (s : string) : toLowerCase (toLowerCase s) = toLowerCase s.
Proof.
  induction s as [| c s IH]; cbn; [reflexivity |].
  now rewrite lower_unit_idem, IH.
Qed.

Lemma toLowerCase_reverse (s : string) :
  toLowerCase (reverse s) = reverse (toLowerCase s).
Proof.
  unfold reverse. rewrite !toLowerCase_as_map.
  now rewrite !list_ascii_of_string_of_list_ascii, map_rev.
Qed.

Lemma toLowerCase_trimStart (s : string) :
  toLowerCase (trimStart s) = trimStart (toLowerCase s).
Proof.
  induction s as [| c s IH]; cbn; [reflexivity |].
  rewrite lower_unit_white. now destruct (is_white_space c).
Qed.

(** Lower-casing and trimming can be done in either order. *)
Lemma toLowerCase_trim (s : string) :
  toLowerCase (trim s) = trim (toLowerCase s).
Proof.
  unfold trim, trimEnd.
  now rewrite toLowerCase_reverse, toLowerCase_trimStart,
    toLowerCase_reverse, toLowerCase_trimStart.
Qed.

Lemma all_white_app (a b : string) :
  all_white (a ++ b) = all_white a && all_white b.
Proof.
  induction a as [| x a IH]; cbn; [reflexivity |].
  now rewrite IH, andb_assoc.
Qed.

Lemma all_white_reverse (s : string) : all_white (reverse s) = all_white s.
Proof.
  induction s as [| c s IH]; [reflexivity |].
  rewrite reverse_cons, all_white_app, IH. cbn.
  rewrite andb_true_r. apply andb_comm.
Qed.

Lemma trimStart_all_white (s : string) :
  all_white s = true -> trimStart s = "".
Proof.
  induction s as [| c s IH]; cbn; [reflexivity |].
  intros H. apply andb_true_iff in H as [-> H]. now apply IH.
Qed.

(** Leading blanks go away. *)
Lemma trimStart_padding (a s : string) :
  all_white a = true -> trimStart (a ++ s) = trimStart s.
Proof.
  induction a as [| x a IH]; cbn; [reflexivity |].
  intros H. apply andb_true_iff in H as [-> H]. now apply IH.
Qed.

(** Blanks behind a text that is not blank throughout are not at the
    start. *)
Lemma trimStart_app_left (s b : string) :
  all_white s = false -> trimStart (s ++ b) = trimStart s ++ b.
Proof.
  induction s as [| c s IH]; cbn; [discriminate |].
  destruct (is_white_space c); cbn; [exact IH | reflexivity].
Qed.

(** Trailing blanks go away. *)
Lemma trimEnd_padding (s b : string) :
  all_white b = true -> trimEnd (s ++ b) = trimEnd s.
Proof.
  intros H. unfold trimEnd. rewrite reverse_app, trimStart_padding; trivial.
  now rewrite all_white_reverse.
Qed.

(** [trim] does not see blanks around the text. *)
Lemma trim_padding (a s b : string) :
  all_white a = true -> all_white b = true ->
  trim (a ++ s ++ b) = trim s.
Proof.
  intros Ha Hb. unfold trim. rewrite (trimStart_padding a _ Ha).
  destruct (all_white s) eqn:Hs.
  - rewrite (trimStart_padding s b Hs), (trimStart_all_white b Hb).
    now rewrite (trimStart_all_white s Hs).
  - rewrite (trimStart_app_left s b Hs). now apply trimEnd_padding.
Qed.

(** A code unit that is not a blank stops [trimStart]. *)
Lemma trimStart_keeps (a : string) (c : ascii) (r : string) :
  is_white_space c = false ->
  exists a', trimStart (a ++ String c r) = a' ++ String c r.
Proof.
  intros Hc. induction a as [| x a IH]; cbn.
  - rewrite Hc. now exists "".
  - destruct (is_white_space x); [exact IH | now exists (String x a)].
Qed.

Lemma trimEnd_keeps (p : string) (c : ascii) (b : string) :
  is_white_space c = false ->
  exists b', trimEnd (p ++ String c b) = p ++ String c b'.
Proof.
  intros Hc. unfold trimEnd.
  rewrite reverse_app, reverse_cons, string_app_assoc. cbn.
  destruct (trimStart_keeps (reverse b) c (reverse p) Hc) as [b' ->].
  exists (reverse b').
  rewrite reverse_app, reverse_cons, reverse_involutive, string_app_assoc.
  reflexivity.
Qed.

(** [trim] keeps what lies between two code units that are not blanks. *)
Lemma trim_keeps (a : string) (c1 : ascii) (u : string) (c2 : ascii) (b : string) :
  is_white_space c1 = false ->
  is_white_space c2 = false ->
  exists a' b',
    trim (a ++ String c1 (u ++ String c2 b)) =
    a' ++ String c1 (u ++ String c2 b').
Proof.
  intros H1 H2. unfold trim.
  destruct (trimStart_keeps a c1 (u ++ String c2 b) H1) as [a' ->].
  destruct (trimEnd_keeps (a' ++ String c1 u) c2 b H2) as [b' Hb'].
  exists a', b'.
  rewrite string_app_assoc in Hb'. cbn in Hb'. rewrite Hb'.
  now rewrite string_app_assoc.
Qed.

Lemma prefix_app (m b : string) : prefix m (m ++ b) = true.
Proof.
  induction m as [| c m IH]; cbn.
  - now destruct b.
  - destruct (ascii_dec c c); [exact IH | contradiction].
Qed.

Lemma includes_prefix (s sub : string) :
  prefix sub s = true -> includes s sub = true.
Proof. intros H. destruct s; cbn [includes]; now rewrite H. Qed.

(** A text includes what it is built around. *)
Lemma includes_app (a m b : string) : includes (a ++ m ++ b) m = true.
Proof.
  induction a as [| x a IH].
  - change ("" ++ m ++ b) with (m ++ b). apply includes_prefix, prefix_app.
  - change (String x a ++ m ++ b) with (String x (a ++ m ++ b)).
    cbn [includes]. rewrite IH. apply orb_true_r.
Qed.

(** Trimming cannot cut into a word written in letters: a text around
    "deploy" in any letter case still includes "deploy" once normalised. *)
Lemma includes_deploy (a mid b : string) :
  toLowerCase mid = "deploy" ->
  includes (toLowerCase (trim (a ++ mid ++ b))) "deploy" = true.
Proof.
  intros Hmid.
  destruct mid as [| c1 [| c2 [| c3 [| c4 [| c5 [| c6 [| c7 m]]]]]]];
    try discriminate Hmid.
  assert (H1 : is_white_space c1 = false).
  { rewrite <- lower_unit_white. injection Hmid as -> _. reflexivity. }
  assert (H6 : is_white_space c6 = false).
  { rewrite <- lower_unit_white. injection Hmid as _ _ _ _ _ ->. reflexivity. }
  destruct (trim_keeps a c1 (String c2 (String c3 (String c4 (String c5 ""))))
              c6 b H1 H6) as (a' & b' & E).
  cbn [append] in E |- *. rewrite E.
  change (a' ++ String c1 (String c2 (String c3 (String c4 (String c5
            (String c6 b'))))))
    with (a' ++ String c1 (String c2 (String c3 (String c4 (String c5
            (String c6 ""))))) ++ b').
  rewrite !toLowerCase_app, Hmid. apply includes_app.
Qed.

Section Dispatch.

Variable rand : nat -> string.
Variable clock : nat -> string.

Local Abbreviation newEntry := (newEntry rand clock).
Local Abbreviation submit := (submit rand clock).

(** Any text that has "deploy" in it, in whatever letter case and with
    whatever around it, starts the simulation when submitted while idle:
    the status becomes (analyzing, "Analyzing repository structure...", 10)
    and the log gains the echo of the text as typed and the first message. *)
Theorem deploy_anywhere_starts_the_pipeline (w : World) (a mid b : string) :
  state (status w) = idle ->
  toLowerCase mid = "deploy" ->
  let cmd := a ++ mid ++ b in
  status (submit cmd w) = analyzing_status
  /\ logs (submit cmd w) =
       (logs w ++ [ newEntry (draws w) ("> " ++ cmd) info;
                    newEntry (S (draws w))
                      "Initiating deployment sequence..." info ])%list
  /\ timers (submit cmd w) = (timers w ++ [(1500, after_analysis)])%list.
Proof.
  intros Hidle Hmid cmd.
  rewrite (submit_deploy rand clock w cmd Hidle (includes_deploy a mid b Hmid)).
  repeat split.
Qed.

(** Which branch the interpreter takes depends on the text only up to
    blanks around it and the case of its letters: the statements after the
    echo and the reset of the text field are the same, except that the
    catch-all branch quotes each text as typed. *)
Theorem dispatch_ignores_padding_and_case
    (snapshot : AgentStatus) (a cmd cmd' b : string) :
  all_white a = true ->
  all_white b = true ->
  toLowerCase cmd' = toLowerCase cmd ->
  let typed := a ++ cmd' ++ b in
  toLowerCase (trim typed) = toLowerCase (trim cmd)
  /\ (skipn 2 (processCommand snapshot typed) =
        skipn 2 (processCommand snapshot cmd)
      \/ (skipn 2 (processCommand snapshot typed) =
            [ IAddLog ("Command not recognized: " ++ typed) error ]
          /\ skipn 2 (processCommand snapshot cmd) =
               [ IAddLog ("Command not recognized: " ++ cmd) error ])).
Proof.
  intros Ha Hb Hcase typed.
  assert (Hnorm : toLowerCase (trim typed) = toLowerCase (trim cmd)).
  { unfold typed. rewrite (trim_padding a cmd' b Ha Hb).
    now rewrite !toLowerCase_trim, Hcase. }
  split; [exact Hnorm |].
  unfold processCommand. cbn [skipn]. rewrite Hnorm.
  destruct (negb (AgentState_eqb (state snapshot) idle)); [now left |].
  destruct (toLowerCase (trim cmd) =? "help"); [now left |].
  destruct (toLowerCase (trim cmd) =? "clear"); [now left |].
  destruct (includes (toLowerCase (trim cmd)) "deploy"); [now left |].
  right. split; reflexivity.
Qed.

End Dispatch.

(** ** What a submission and a timer leave alone *)

Section Frames.

Variable rand : nat -> string.
Variable clock : nat -> string.

Local Abbreviation submit := (submit rand clock).
Local Abbreviation timeout := (timeout rand clock).
Local Abbreviation exec := (exec rand clock).

(** Only "deploy" sets the agent going: when the agent is busy, or the
    normalised text does not contain "deploy", a submission writes no status
    and puts nothing to sleep, whatever else it does to the log. *)
Theorem only_deploy_changes_the_status (w : World) (cmd : string) :
  state (status w) <> idle
  \/ includes (toLowerCase (trim cmd)) "deploy" = false ->
  status (submit cmd w) = status w
  /\ timers (submit cmd w) = timers w
  /\ transitions (trace (submit cmd w)) = transitions (trace w).
Proof.
  intros Hno. unfold submit.
  assert (Hone : forall m l,
    processCommand (status w) cmd =
      [ IAddLog ("> " ++ cmd) info; ISetInput ""; IAddLog m l ] ->
    status (run rand clock (processCommand (status w) cmd) w) = status w
    /\ timers (run rand clock (processCommand (status w) cmd) w) = timers w
    /\ transitions (trace (run rand clock (processCommand (status w) cmd) w))
       = transitions (trace w)).
  { intros m l ->. rewrite run_echo_and_one. cbn. repeat split.
    rewrite transitions_app. cbn. now rewrite app_nil_r. }
  destruct (AgentState_eqb_spec (state (status w)) idle) as [Hidle | Hbusy].
  - destruct Hno as [Hbusy | Hd]; [contradiction |].
    destruct (String.eqb_spec (toLowerCase (trim cmd)) "help") as [Eh | Nh].
    { eapply Hone. now apply processCommand_help. }
    destruct (String.eqb_spec (toLowerCase (trim cmd)) "clear") as [Ec | Nc].
    { rewrite (processCommand_clear _ cmd Hidle Ec). cbn. repeat split.
      unfold record. cbn. rewrite !transitions_app. cbn.
      now rewrite !app_nil_r. }
    eapply Hone. now apply processCommand_other.
  - eapply Hone. now apply processCommand_busy.
Qed.

(** The simulation never touches the text field: in every execution, a timer
    going off leaves what the user has typed so far as it is. *)
Theorem timer_keeps_the_text_field (evs : list Event) (i : nat) :
  input (timeout i (exec evs init)) = input (exec evs init).
Proof.
  remember (exec evs init) as w eqn:E.
  assert (Hw : consistent w)
    by (rewrite E; apply consistent_exec, consistent_init).
  clear E.
  destruct Hw as [[Hs Ht] | [[Hs Ht] | [[Hs Ht] | [Hs Ht]]]].
  - now rewrite (timeout_nothing rand clock w i Ht).
  - destruct i as [| i];
      [| now rewrite (timeout_single rand clock w _ _ (S i) Ht)].
    now rewrite (wake_after_analysis rand clock w Ht).
  - destruct i as [| i];
      [| now rewrite (timeout_single rand clock w _ _ (S i) Ht)].
    now rewrite (wake_after_build rand clock w Ht).
  - destruct i as [| i];
      [| now rewrite (timeout_single rand clock w _ _ (S i) Ht)].
    now rewrite (wake_after_upload rand clock w Ht).
Qed.

End Frames.

(** ** The further theorems at concrete inputs *)

Lemma help_lists_the_commands_witness :
  toLowerCase (trim " Help") = "help"
  /\ map shown (logs (submit sample_rand sample_clock " Help" init)) =
       [ (">  Help", info);
         ("Available commands: deploy, status, clear, analyze", info) ].
Proof.
  split; [reflexivity |].
  rewrite (proj1 (help_lists_the_commands sample_rand sample_clock init
                    " Help" eq_refl eq_refl)).
  reflexivity.
Defined.

Lemma deploy_button_is_typing_deploy_witness :
  state (status init) = idle
  /\ logs (clickDeploy sample_rand sample_clock init) =
     logs (handleKeyDown sample_rand sample_clock "Enter"
             (setInput "deploy" init)).
Proof.
  split; [reflexivity |].
  exact (proj1 (proj1 (deploy_button_is_typing_deploy
                         sample_rand sample_clock init) eq_refl)).
Defined.

Lemma tally_rand_injective (m n : nat) : tally_rand m = tally_rand n -> m = n.
Proof.
  unfold tally_rand. intros H.
  apply (f_equal list_ascii_of_string) in H.
  rewrite !list_ascii_of_string_of_list_ascii in H.
  apply (f_equal (@List.length ascii)) in H.
  now rewrite !repeat_length in H.
Qed.

Lemma log_keys_are_unique_witness :
  NoDup (map id (logs (exec tally_rand sample_clock
                         [ClickDeploy; Change "x"; KeyDown "Enter"; Timeout 0]
                         init))).
Proof.
  exact (log_keys_are_unique tally_rand sample_clock
           [ClickDeploy; Change "x"; KeyDown "Enter"; Timeout 0]
           tally_rand_injective).
Defined.

Lemma deploy_anywhere_starts_the_pipeline_witness :
  toLowerCase "DePloY" = "deploy"
  /\ status (submit sample_rand sample_clock ("do not re" ++ "DePloY" ++ "!")
               init)
     = analyzing_status.
Proof.
  split; [reflexivity |].
  exact (proj1 (deploy_anywhere_starts_the_pipeline sample_rand sample_clock
                  init "do not re" "DePloY" "!" eq_refl eq_refl)).
Defined.

Lemma dispatch_ignores_padding_and_case_witness :
  all_white "  " = true
  /\ toLowerCase "CLEAR" = toLowerCase "clear"
  /\ toLowerCase (trim ("  " ++ "CLEAR" ++ " ")) = toLowerCase (trim "clear").
Proof.
  split; [reflexivity |]. split; [reflexivity |].
  exact (proj1 (dispatch_ignores_padding_and_case initial_status
                  "  " "clear" "CLEAR" " " eq_refl eq_refl eq_refl)).
Defined.

Lemma only_deploy_changes_the_status_witness :
  includes (toLowerCase (trim "deplo y")) "deploy" = false
  /\ status (submit sample_rand sample_clock "deplo y" init) = status init.
Proof.
  split; [reflexivity |].
  exact (proj1 (only_deploy_changes_the_status sample_rand sample_clock
                  init "deplo y" (or_intror eq_refl))).
Defined.
